(** * grow-python, examples/new/monitor.py: channel state machine,
      colour interpolation, settings application and button navigation.

    A shallow embedding of the logic of [monitor.py] and the properties
    its specification states about it.

    Numbers.  A Python float is represented by the rational it denotes
    and float arithmetic by exact arithmetic on [Q]; NaN and infinities
    have no counterpart.  Where the source computes in binary64 and a
    rounded result could differ from the exact one, the properties below
    either hold of both (bounds, comparisons, table lookups), or carry the
    hypothesis that no operation of the run rounds ([exact_run]), or bound
    their inputs to where both agree: away from the floats that invert to
    1.0 ([epsilon]), below the magnitudes that scale to infinity
    ([scale_limit]), and to palettes of ints that convert to floats
    exactly ([exact_int]).  Every concrete evaluation is taken at dyadic
    rationals, where binary64 computes the same values.  Python ints are
    unbounded and kept apart from floats ([PyInt]), since converting a
    large int to a float raises.

    Dynamic typing.  The nine configuration attributes of a [Channel] are
    overwritten by [update_from_yml] with whatever the settings document
    holds, so they carry Python values ([pyval]); [update] and [water]
    interpret them as Python does (truthiness, ordering against a float)
    and raise where Python raises. *)

From Stdlib Require Import ZArith QArith Qround Lia Lqa.
From stdpp Require Import base option list gmap strings pretty.

Local Open Scope Z_scope.

(** ** Python values and exceptions *)

Inductive pyval : Type :=
  | PyNone
  | PyBool (b : bool)
  | PyInt (z : Z)
  | PyNum (q : Q)
  | PyStr (s : string).

Inductive exn : Type :=
  | TypeError
  | ValueError
  | IndexError
  | ZeroDivisionError
  | OverflowError.

Inductive result (A : Type) : Type :=
  | Ok (a : A)
  | Raise (e : exn).
Arguments Ok {A} a.
Arguments Raise {A} e.

Module Py.

(** [bool(v)]: the truth value tested by [if] and [not]. *)
Definition truthy (v : pyval) : bool :=
  match v with
  | PyNone => false
  | PyBool b => b
  | PyInt z => negb (z =? 0)
  | PyNum q => negb (Qeq_bool q 0)
  | PyStr s => negb (String.eqb s EmptyString)
  end.

(** The number a value stands for in arithmetic and ordering against a
    float; [None] and strings have none. *)
Definition num_of (v : pyval) : option Q :=
  match v with
  | PyBool b => Some (if b then 1%Q else 0%Q)
  | PyInt z => Some (inject_Z z)
  | PyNum q => Some q
  | PyNone | PyStr _ => None
  end.

Definition Qltb (x y : Q) : bool :=
  match (x ?= y)%Q with Lt => true | _ => false end.

(** [x < v] for a float [x]. *)
Definition float_lt (x : Q) (v : pyval) : result bool :=
  match num_of v with
  | Some y => Ok (Qltb x y)
  | None => Raise TypeError
  end.

(** [x > v] for a float [x]. *)
Definition float_gt (x : Q) (v : pyval) : result bool :=
  match num_of v with
  | Some y => Ok (Qltb y x)
  | None => Raise TypeError
  end.

(** The least magnitude at which converting an int to a float raises
    [OverflowError]: the ints that round to [2 ** 1024] or beyond. *)
Definition float_overflow : Z := 2 ^ 1024 - 2 ^ 970.

(** ["{:.2f}".format(v)] succeeds on numbers only, and on an int only
    when it converts to a float. *)
Definition format_2f (v : pyval) : result unit :=
  match v with
  | PyBool _ | PyNum _ => Ok tt
  | PyInt z => if Z.abs z <? float_overflow then Ok tt
               else Raise OverflowError
  | PyNone => Raise TypeError
  | PyStr _ => Raise ValueError
  end.

(** [v * 100]: an int for a bool or an int, a float for a float, the
    string repeated for a string. *)
Definition times_100 (v : pyval) : result pyval :=
  match v with
  | PyBool b => Ok (PyInt (if b then 100 else 0))
  | PyInt z => Ok (PyInt (z * 100))
  | PyNum q => Ok (PyNum (q * 100))
  | PyStr s => Ok (PyStr (String.concat EmptyString (replicate 100 s)))
  | PyNone => Raise TypeError
  end.

(** [math.floor(x)] and [int(x)] (truncation toward zero). *)
Definition floor (x : Q) : Z := Qfloor x.
Definition int (x : Q) : Z := Z.quot (Qnum x) (Z.pos (Qden x)).

(** [l[i]] with Python's negative indices. *)
Definition index {A : Type} (l : list A) (i : Z) : result A :=
  let n := Z.of_nat (length l) in
  let j := if i <? 0 then i + n else i in
  if (0 <=? j) && (j <? n) then
    match l !! Z.to_nat j with
    | Some x => Ok x
    | None => Raise IndexError
    end
  else Raise IndexError.

(** [l.index(x)]. *)
Fixpoint index_of (x : Z) (l : list Z) : result Z :=
  match l with
  | [] => Raise ValueError
  | y :: l' =>
      if x =? y then Ok 0
      else match index_of x l' with
           | Ok i => Ok (i + 1)
           | Raise e => Raise e
           end
  end.

End Py.

(** ** Collaborators *)

(** Modelled from the spec: the moisture sensor ([grow.moisture.Moisture]) is
    an external collaborator; section 6 of the specification gives it a
    current saturation reading, an active flag, a history of readings and
    two calibration setters. *)
Record Moisture : Type := mkMoisture {
  sensor_channel : Z;
  saturation : Q;
  active : bool;
  history : list Q;
  sensor_wet_point : pyval;
  sensor_dry_point : pyval
}.

Definition set_wet_point (v : pyval) (m : Moisture) : Moisture :=
  mkMoisture (sensor_channel m) (saturation m) (active m) (history m)
    v (sensor_dry_point m).

Definition set_dry_point (v : pyval) (m : Moisture) : Moisture :=
  mkMoisture (sensor_channel m) (saturation m) (active m) (history m)
    (sensor_wet_point m) v.

(** What a call leaves behind outside the channel object: a dose request to
    the pump collaborator ([grow.pump.Pump], opaque) or a log record. *)
Inductive event : Type :=
  | PumpDose (pump_channel : Z) (speed time : pyval) (blocking : bool)
  | LogInfo (display_channel : Z) (speed time : pyval)
  | LogWarning (display_channel : Z) (sat_percent level_percent : Q).

(** ** class Channel *)

Definition colour : Type := Z * Z * Z.

Record Channel : Type := mkChannel {
  channel : Z;
  sensor : Moisture;
  pump : Z;
  water_level : pyval;
  alarm_level : pyval;
  auto_water : pyval;
  pump_speed : pyval;
  pump_time : pyval;
  watering_delay : pyval;
  wet_point : pyval;
  dry_point : pyval;
  last_dose : Q;
  icon : pyval;
  enabled : pyval;
  alarm : bool;
  title : string
}.

Definition bar_colours : list colour :=
  [ (192, 225, 254); (196, 255, 209); (255, 243, 192); (254, 192, 192) ].

Definition label_colours : list colour :=
  [ (32, 137, 251); (100, 255, 124); (254, 219, 82); (254, 82, 82) ].

(** [Channel(display_channel, sensor_channel, pump_channel)] with the
    keyword defaults of [__init__]; [now] is the reading of [time.time()]
    and [moisture] the collaborator's constructor [Moisture(...)]. *)
Definition Channel_init (now : Q) (moisture : Z → Moisture)
    (display_channel sensor_ch pump_ch : Z) : Channel :=
  let wet := PyNum 0.7 in
  let dry := PyNum 26.7 in
  {| channel := display_channel;
     sensor := set_dry_point dry (set_wet_point wet (moisture sensor_ch));
     pump := pump_ch;
     water_level := PyNum 0.5;
     alarm_level := PyNum 0.5;
     auto_water := PyBool false;
     pump_speed := PyNum 0.7;
     pump_time := PyNum 0.7;
     watering_delay := PyInt 30;
     wet_point := wet;
     dry_point := dry;
     last_dose := now;
     icon := PyNone;
     enabled := PyBool false;
     alarm := false;
     title := "Channel " +:+ pretty display_channel |}.

(** ** Exceptions as a monad *)

#[global] Instance result_ret : MRet result := λ A a, Ok a.
#[global] Instance result_bind : MBind result := λ A B f m,
  match m with
  | Ok a => f a
  | Raise e => Raise e
  end.

(** ** Effects

    A call runs on a mutable object (a channel, or the module's globals),
    may mutate it, may leave events behind and either returns or raises;
    what it mutated and emitted before raising stays. *)

Definition Eff (S E A : Type) : Type := S → result A * S * list E.

#[global] Instance Eff_ret {S E} : MRet (Eff S E) := λ A a s, (Ok a, s, []).
#[global] Instance Eff_bind {S E} : MBind (Eff S E) := λ A B f m s,
  match m s with
  | (Ok a, s1, ev1) =>
      match f a s1 with
      | (r, s2, ev2) => (r, s2, ev1 ++ ev2)
      end
  | (Raise e, s1, ev1) => (Raise e, s1, ev1)
  end.

Definition get_state {S E} : Eff S E S := λ s, (Ok s, s, []).
Definition modify {S E} (f : S → S) : Eff S E unit := λ s, (Ok tt, f s, []).
Definition emit {S E} (e : E) : Eff S E unit := λ s, (Ok tt, s, [e]).
Definition lift {S E A} (r : result A) : Eff S E A := λ s, (r, s, []).

(** The object after the call, and what the call emitted. *)
Definition state_after {S E A} (r : result A * S * list E) : S := r.1.2.
Definition events_of {S E A} (r : result A * S * list E) : list E := r.2.
Definition outcome {S E A} (r : result A * S * list E) : result A := r.1.1.

(** ** Channel methods *)

Abbreviation ChanM := (Eff Channel event).

Definition set_last_dose (t : Q) (c : Channel) : Channel :=
  {| channel := channel c; sensor := sensor c; pump := pump c;
     water_level := water_level c; alarm_level := alarm_level c;
     auto_water := auto_water c; pump_speed := pump_speed c;
     pump_time := pump_time c; watering_delay := watering_delay c;
     wet_point := wet_point c; dry_point := dry_point c;
     last_dose := t;
     icon := icon c; enabled := enabled c; alarm := alarm c;
     title := title c |}.

Definition set_alarm (a : bool) (c : Channel) : Channel :=
  {| channel := channel c; sensor := sensor c; pump := pump c;
     water_level := water_level c; alarm_level := alarm_level c;
     auto_water := auto_water c; pump_speed := pump_speed c;
     pump_time := pump_time c; watering_delay := watering_delay c;
     wet_point := wet_point c; dry_point := dry_point c;
     last_dose := last_dose c;
     icon := icon c; enabled := enabled c; alarm := a;
     title := title c |}.

(** *** indicator_color *)

Definition component (c : colour) (i : nat) : Z :=
  match c, i with
  | (x, _, _), O => x
  | (_, y, _), S O => y
  | (_, _, z), _ => z
  end.

(** One element of the comprehension
    [int(((r[b][i] - r[a][i]) * blend) + r[a][i])]. *)
Definition blend_component (r : list colour) (a b : Z) (blend : Q) (i : nat)
  : result Z :=
  rb ← Py.index r b;
  ra ← Py.index r a;
  mret (Py.int ((inject_Z (component rb i - component ra i) * blend
                 + inject_Z (component ra i))%Q)).

Definition indicator_color (value : Q) (r : option (list colour))
  : result colour :=
  let value := (1 - value)%Q in
  let r := default bar_colours r in
  if Qeq_bool value 1 then Py.index r (-1)
  else if Qeq_bool value 0 then Py.index r 0
  else
    let value := (value * inject_Z (Z.of_nat (length r) - 1))%Q in
    let a := Py.floor value in
    let b := a + 1 in
    let blend := (value - inject_Z a)%Q in
    x ← blend_component r a b blend 0;
    y ← blend_component r a b blend 1;
    z ← blend_component r a b blend 2;
    mret (x, y, z).

(** *** update_from_yml *)

(** [config.get(key, dflt)]. *)
Definition config_get (config : gmap string pyval) (key : string)
    (dflt : pyval) : pyval :=
  default dflt (config !! key).

(** Every assignment reads the settings mapping and the attribute it
    overwrites, nothing else. *)
Definition update_from_yml (config : option (gmap string pyval))
    (self : Channel) : Channel :=
  match config with
  | None => self
  | Some config =>
      {| channel := channel self;
         sensor := sensor self;
         pump := pump self;
         pump_speed := config_get config "pump_speed" (pump_speed self);
         pump_time := config_get config "pump_time" (pump_time self);
         alarm_level := config_get config "alarm_level" (alarm_level self);
         water_level := config_get config "water_level" (water_level self);
         watering_delay :=
           config_get config "watering_delay" (watering_delay self);
         auto_water := config_get config "auto_water" (auto_water self);
         enabled := config_get config "enabled" (enabled self);
         wet_point := config_get config "wet_point" (wet_point self);
         dry_point := config_get config "dry_point" (dry_point self);
         last_dose := last_dose self;
         icon := icon self;
         alarm := alarm self;
         title := title self |}
  end.

(** *** water and update

    [time.time()] is read twice in [water]: [t_check] is the reading
    compared against the cooldown, [t_dose] the later one stored in
    [last_dose] when a dose was requested.  The request itself,
    [self.pump.dose(speed, time, blocking=False)], goes to the pump
    collaborator and is recorded as an event; what the pump makes of it
    is not part of this module. *)
Record clock : Type := mkClock { t_check : Q; t_dose : Q }.

Definition water (now : clock) : ChanM bool :=
  self ← get_state;
  if negb (Py.truthy (auto_water self)) then mret false
  else
    due ← lift (Py.float_gt (t_check now - last_dose self)%Q
                  (watering_delay self));
    if (due : bool) then
      emit (PumpDose (pump self) (pump_speed self) (pump_time self) false);;
      modify (set_last_dose (t_dose now));;
      mret true
    else mret false.

Definition update (now : clock) : ChanM unit :=
  self ← get_state;
  if negb (Py.truthy (enabled self)) then mret tt
  else
    let sat := saturation (sensor self) in
    thirsty ← lift (Py.float_lt sat (water_level self));
    if (thirsty : bool) then
      watered ← water now;
      (if (watered : bool) then
         self ← get_state;
         lift (Py.format_2f (pump_speed self));;
         lift (Py.format_2f (pump_time self));;
         emit (LogInfo (channel self) (pump_speed self) (pump_time self))
       else mret tt);;
      self ← get_state;
      low ← lift (Py.float_lt sat (alarm_level self));
      if (low : bool) && negb (alarm self) then
        level ← lift (match Py.num_of (alarm_level self) with
                      | Some l => Ok l
                      | None => Raise TypeError
                      end);
        percent ← lift (Py.times_100 (alarm_level self));
        lift (Py.format_2f percent);;
        emit (LogWarning (channel self) (sat * 100)%Q (level * 100)%Q);;
        modify (set_alarm true)
      else mret tt
    else mret tt.

(** ** Module globals and handle_button *)

Definition BUTTONS : list Z := [5; 6; 16; 24].
Definition LABELS : list string := ["A"; "B"; "X"; "Y"].

(** A view object; it refers to channel objects it shares with the
    [channels] list, here by their position in that list. *)
Inductive View : Type :=
  | MainView
  | DetailView (channel_index : nat)
  | EditView (channel_index : nat).

(** An entry of [views]: a view object, or a tuple of them. *)
Inductive view_entry : Type :=
  | Single (v : View)
  | Tuple (vs : list View).

Definition views : list view_entry :=
  [ Single MainView;
    Tuple [DetailView 0; EditView 0];
    Tuple [DetailView 1; EditView 1];
    Tuple [DetailView 2; EditView 2] ].

(** The mutable globals: the channel objects, the two navigation indices
    and [alarm], which is unbound until the first "B" press binds it. *)
Record Globals : Type := mkGlobals {
  channels : list Channel;
  current_view : Z;
  current_subview : Z;
  alarm_flag : option bool
}.

Definition initial_channels (now : Q) (moisture : Z → Moisture)
  : list Channel :=
  [ Channel_init now moisture 1 1 1;
    Channel_init now moisture 2 2 2;
    Channel_init now moisture 3 3 3 ].

Definition initial_globals (now : Q) (moisture : Z → Moisture) : Globals :=
  mkGlobals (initial_channels now moisture) 0 0 None.

Definition set_current_view (v : Z) (g : Globals) : Globals :=
  mkGlobals (channels g) v (current_subview g) (alarm_flag g).
Definition set_current_subview (v : Z) (g : Globals) : Globals :=
  mkGlobals (channels g) (current_view g) v (alarm_flag g).
Definition set_alarm_flag (a : bool) (g : Globals) : Globals :=
  mkGlobals (channels g) (current_view g) (current_subview g) (Some a).
Definition set_channels (cs : list Channel) (g : Globals) : Globals :=
  mkGlobals cs (current_view g) (current_subview g) (alarm_flag g).

(** [x % n] on ints. *)
Definition py_mod (x n : Z) : result Z :=
  if n =? 0 then Raise ZeroDivisionError else Ok (x `mod` n).

Abbreviation AppM := (Eff Globals string).

Definition handle_button (pin : Z) : AppM unit :=
  index ← lift (Py.index_of pin BUTTONS);
  label ← lift (Py.index LABELS index);
  (if String.eqb label "A" then
     g ← get_state;
     if current_subview g =? 0 then
       modify (set_current_view (current_view g + 1));;
       g ← get_state;
       v ← lift (py_mod (current_view g) (Z.of_nat (length views)));
       modify (set_current_view v);;
       modify (set_current_subview 0);;
       g ← get_state;
       emit ("Switched to view " +:+ pretty (current_view g))
     else mret tt
   else mret tt);;
  (if String.eqb label "B" then
     modify (set_alarm_flag false);;
     g ← get_state;
     modify (set_channels (set_alarm false <$> channels g))
   else mret tt);;
  (if String.eqb label "X" then
     g ← get_state;
     view ← lift (Py.index views (current_view g));
     match view with
     | Tuple vs =>
         modify (set_current_subview (current_subview g + 1));;
         g ← get_state;
         v ← lift (py_mod (current_subview g) (Z.of_nat (length vs)));
         modify (set_current_subview v);;
         g ← get_state;
         emit ("Switched to subview " +:+ pretty (current_subview g))
     | Single _ => mret tt
     end
   else mret tt);;
  (if String.eqb label "Y" then mret tt else mret tt).

(** The globals after the handler ran for one button event, and after a
    sequence of them. *)
Definition press (pin : Z) (g : Globals) : Globals :=
  state_after (handle_button pin g).

Definition presses (pins : list Z) (g : Globals) : Globals :=
  foldl (λ g pin, press pin g) g pins.

(** How many sub-views the entry at the top-level index offers: the length
    of a tuple, one for a single view. *)
Definition subview_count (e : view_entry) : Z :=
  match e with
  | Single _ => 1
  | Tuple vs => Z.of_nat (length vs)
  end.

(** The view the main loop renders: [views[current_view]], indexed by
    [current_subview] when it is a tuple. *)
Definition rendered_view (g : Globals) : result View :=
  view ← Py.index views (current_view g);
  match view with
  | Tuple vs => Py.index vs (current_subview g)
  | Single v => mret v
  end.

(** ** Ticks

    One tick of a channel: the sensor collaborator presents a reading,
    then [update] runs. *)
Record tick : Type := mkTick { reading : Q; now : clock }.

Definition sense (sat : Q) (c : Channel) : Channel :=
  {| channel := channel c;
     sensor := mkMoisture (sensor_channel (sensor c)) sat (active (sensor c))
                 (history (sensor c)) (sensor_wet_point (sensor c))
                 (sensor_dry_point (sensor c));
     pump := pump c;
     water_level := water_level c; alarm_level := alarm_level c;
     auto_water := auto_water c; pump_speed := pump_speed c;
     pump_time := pump_time c; watering_delay := watering_delay c;
     wet_point := wet_point c; dry_point := dry_point c;
     last_dose := last_dose c;
     icon := icon c; enabled := enabled c; alarm := alarm c;
     title := title c |}.

Definition run_tick (t : tick) (c : Channel) : Channel :=
  state_after (update (now t) (sense (reading t) c)).

Definition run_ticks (ts : list tick) (c : Channel) : Channel :=
  foldl (λ c t, run_tick t c) c ts.

(** A dose was requested during the call. *)
Definition is_dose (e : event) : bool :=
  match e with
  | PumpDose _ _ _ _ => true
  | _ => false
  end.

Definition dosed (evs : list event) : bool := existsb is_dose evs.

(** What a sequence of ticks emitted, in order. *)
Fixpoint run_ticks_events (ts : list tick) (c : Channel) : list event :=
  match ts with
  | [] => []
  | t :: ts' =>
      events_of (update (now t) (sense (reading t) c))
        ++ run_ticks_events ts' (run_tick t c)
  end.

(** ** Rendering

    The render methods of [Channel] talk to the drawing collaborator
    ([PIL.ImageDraw]); a call of one of them is the sequence of drawing
    requests it makes.  Coordinates are ints or floats, both rationals
    here.  The height of the display and the font's [getsize] come from
    collaborators and are parameters. *)

Definition DISPLAY_WIDTH : Z := 160.
Definition DISPLAY_HEIGHT : Z := 80.

(** The string handed to [draw.text]: a ready string, or the saturation
    percentage still to be formatted by ["Sat: {:.2f}%"]. *)
Inductive caption : Type :=
  | Plain (s : string)
  | SatPercent (percent : Q).

Inductive draw : Type :=
  | Rectangle (x0 y0 x1 y1 : Q) (fill : colour)
  | Text (x y : Q) (s : caption) (fill : colour).

Abbreviation DrawM := (Eff unit draw).

Definition rectangle (x0 y0 x1 y1 : Q) (fill : colour) : DrawM unit :=
  emit (Rectangle x0 y0 x1 y1 fill).

Definition text (x y : Q) (s : caption) (fill : colour) : DrawM unit :=
  emit (Text x y s fill).

(** The loop of [render_detail] over [enumerate(history[:DISPLAY_WIDTH])],
    from column [x] on. *)
Fixpoint draw_history (graph_height : Z) (x : Z) (values : list Q)
  : DrawM unit :=
  match values with
  | [] => mret tt
  | value :: rest =>
      color ← lift (indicator_color value None);
      let h := (value * inject_Z graph_height)%Q in
      rectangle (inject_Z x) (inject_Z DISPLAY_HEIGHT - h)
        (inject_Z (x + 1)) (inject_Z DISPLAY_HEIGHT) color;;
      draw_history graph_height (x + 1) rest
  end.

Definition render_detail (self : Channel) : DrawM unit :=
  text 23 3 (Plain (title self)) (0, 0, 0);;
  let graph_height := DISPLAY_HEIGHT - 20 in
  rectangle 0 20 (inject_Z DISPLAY_WIDTH) (inject_Z DISPLAY_HEIGHT)
    (60, 60, 60);;
  draw_history graph_height 0
    (take (Z.to_nat DISPLAY_WIDTH) (history (sensor self)));;
  level ← lift (match Py.num_of (alarm_level self) with
                | Some l => Ok l
                | None => Raise TypeError
                end);
  let alarm_line := (level * inject_Z graph_height)%Q in
  rectangle 0 (inject_Z DISPLAY_HEIGHT - alarm_line)
    (inject_Z DISPLAY_WIDTH) (inject_Z DISPLAY_HEIGHT - alarm_line + 1)
    (255, 0, 0);;
  rectangle (inject_Z (DISPLAY_WIDTH - 50))
    (inject_Z DISPLAY_HEIGHT - alarm_line - 16)
    (inject_Z DISPLAY_WIDTH) (inject_Z DISPLAY_HEIGHT - alarm_line + 1)
    (255, 0, 0);;
  text (inject_Z (DISPLAY_WIDTH - 47))
    (inject_Z DISPLAY_HEIGHT - alarm_line - 15) (Plain "Alarm")
    (255, 255, 255).

(** [Channel.render]: the bar and the marker of one channel on the main
    view. *)
Definition render (HEIGHT : Z) (getsize : string → Z * Z) (self : Channel)
  : DrawM unit :=
  x ← lift (Py.index [21; 61; 101] (channel self - 1));
  let saturation := saturation (sensor self) in
  let active := active (sensor self) && Py.truthy (enabled self) in
  (if active then
     color ← lift (indicator_color saturation None);
     rectangle (inject_Z x)
       (inject_Z (Py.int ((1 - saturation) * inject_Z HEIGHT)))
       (inject_Z (x + 37)) (inject_Z HEIGHT) color
   else mret tt);;
  let x := x + 15 in
  color ← lift (if active then indicator_color saturation (Some label_colours)
                else Ok (129, 129, 129));
  rectangle (inject_Z x) 2 (inject_Z (x + 15)) 17 color;;
  let tw := (getsize (pretty (channel self))).1 in
  text (inject_Z (x + Qceiling (8 - inject_Z tw / 2))) 2
    (Plain (pretty (channel self))) (255, 255, 255).

(** A bar of the history graph in column [x]: one column wide, standing on
    the bottom edge, its top inside the graph area below the title bar, its
    colour within the range of the bar palette. *)
Definition graph_bar (x : Z) (d : draw) : Prop :=
  ∃ top r g b,
    d = Rectangle (inject_Z x) top (inject_Z (x + 1))
          (inject_Z DISPLAY_HEIGHT) (r, g, b) ∧
    (20 <= top)%Q ∧ (top <= inject_Z DISPLAY_HEIGHT)%Q ∧
    192 <= r <= 255 ∧ 192 <= g <= 255 ∧ 192 <= b <= 255.

(** ** Vocabulary of the specification *)

(** The keys [update_from_yml] recognises and the attribute each names. *)
Definition recognized_keys : list string :=
  [ "pump_speed"; "pump_time"; "alarm_level"; "water_level";
    "watering_delay"; "auto_water"; "enabled"; "wet_point"; "dry_point" ].

Definition attr (key : string) (c : Channel) : option pyval :=
  if String.eqb key "pump_speed" then Some (pump_speed c)
  else if String.eqb key "pump_time" then Some (pump_time c)
  else if String.eqb key "alarm_level" then Some (alarm_level c)
  else if String.eqb key "water_level" then Some (water_level c)
  else if String.eqb key "watering_delay" then Some (watering_delay c)
  else if String.eqb key "auto_water" then Some (auto_water c)
  else if String.eqb key "enabled" then Some (enabled c)
  else if String.eqb key "wet_point" then Some (wet_point c)
  else if String.eqb key "dry_point" then Some (dry_point c)
  else None.

(** Everything of a channel that is not one of the nine settings. *)
Definition runtime_of (c : Channel)
  : Z * Moisture * Z * Q * pyval * bool * string :=
  (channel c, sensor c, pump c, last_dose c, icon c, alarm c, title c).

(** Everything of a channel but its alarm flag: identity, the sensor,
    the settings and the time of the last dose. *)
Definition config_and_sensor (c : Channel) : Channel := set_alarm false c.

(** Navigation indices within bounds: the top-level index addresses an
    entry of [views] and the sub-view index one of its sub-views. *)
Definition nav_in_range (g : Globals) : Prop :=
  0 <= current_view g < Z.of_nat (length views) ∧
  ∃ e, views !! Z.to_nat (current_view g) = Some e ∧
       0 <= current_subview g < subview_count e.

(** Linear interpolation from [x] to [y], in the order the source
    evaluates it. *)
Definition lerp (x y : Z) (t : Q) : Q :=
  (inject_Z (y - x) * t + inject_Z x)%Q.

(** Python's [round(x)]: to the nearest integer, ties to the even one. *)
Definition py_round (x : Q) : Z :=
  let f := Qfloor x in
  match (x - inject_Z f ?= 1 # 2)%Q with
  | Lt => f
  | Gt => f + 1
  | Eq => if Z.even f then f else f + 1
  end.

(** The interpolation as section 4.1 of the specification words it:
    clamp at the ends, otherwise blend the two neighbouring palette
    entries and round each component. *)
Definition color_for (value : Q) (palette : list colour) : result colour :=
  let v := (1 - value)%Q in
  if Qeq_bool v 0 then Py.index palette 0
  else if Qeq_bool v 1 then Py.index palette (-1)
  else
    let scaled := (v * inject_Z (Z.of_nat (length palette) - 1))%Q in
    let a := Qfloor scaled in
    let b := a + 1 in
    let t := (scaled - inject_Z a)%Q in
    ca ← Py.index palette a;
    cb ← Py.index palette b;
    mret (py_round (lerp (component ca 0) (component cb 0) t),
          py_round (lerp (component ca 1) (component cb 1) t),
          py_round (lerp (component ca 2) (component cb 2) t)).

(** ** Binary64

    Modelled from IEEE 754: the finite binary64 numbers, the values a
    Python float takes, are the [m * 2 ^ e] with [|m| < 2 ^ 53] and
    [-1074 <= e <= 971].  An operation whose exact result is one of them
    returns it; on such results float arithmetic and the exact arithmetic
    of this file agree. *)
Definition is_binary64 (q : Q) : bool :=
  let q := Qred q in
  let n := Z.abs (Qnum q) in
  let d := Z.pos (Qden q) in
  if n =? 0 then true
  else if d =? 1 then
    (n / Z.land n (- n) <? 2 ^ 53) && (n <? 2 ^ 1024)
  else
    (d =? 2 ^ Z.log2 d) && (Z.log2 d <=? 1074) && (n <? 2 ^ 53).

(** No operation of [indicator_color] on [value] and palette [r] rounds:
    the input is a float, and the inverted input, the palette's last index,
    the scaled input, the blend factor and, for each component, the
    converted ints, the product and the sum are binary64 numbers. *)
Definition exact_run (value : Q) (r : list colour) : bool :=
  let v := (1 - value)%Q in
  let k := Z.of_nat (length r) - 1 in
  let scaled := (v * inject_Z k)%Q in
  let a := Py.floor scaled in
  let blend := (scaled - inject_Z a)%Q in
  is_binary64 value && is_binary64 v && is_binary64 (inject_Z k)
  && is_binary64 scaled && is_binary64 (inject_Z a) && is_binary64 blend
  && match Py.index r a, Py.index r (a + 1) with
     | Ok ca, Ok cb =>
         forallb
           (λ i,
              let d := inject_Z (component cb i - component ca i) in
              let x := inject_Z (component ca i) in
              is_binary64 d && is_binary64 x
              && is_binary64 (d * blend) && is_binary64 (d * blend + x))
           [0; 1; 2]%nat
     | _, _ => true
     end.

(** [sys.float_info.epsilon], [2 ** -52]: the gap between 1.0 and the
    next float.  A float at or below [- epsilon] inverts to a float above
    1.0; one between [- epsilon / 2] and 0 inverts to 1.0 itself. *)
Definition epsilon : Q := 1 # 2 ^ 52.

(** A magnitude, [2 ** 900], up to which the inverted input scaled by the
    length of a list stays a finite float. *)
Definition scale_limit : Q := inject_Z (2 ^ 900).

(** The largest magnitude, [2 ** 52], at which ints and the differences
    of two of them convert to floats without rounding. *)
Definition exact_int : Z := 2 ^ 52.

(** ** Sample configurations *)

(** A sensor object that has not produced a reading yet. *)
Definition unread_sensor (ch : Z) : Moisture :=
  mkMoisture ch 0 false [] PyNone PyNone.

Definition default_channel : Channel := Channel_init 0 unread_sensor 1 1 1.

(** Channel 1 switched on with automatic watering, watering below one
    half and alarming below one quarter. *)
Definition sample_settings : gmap string pyval :=
  list_to_map
    [ ("enabled", PyBool true); ("auto_water", PyBool true);
      ("alarm_level", PyNum 0.25); ("colour", PyStr "green") ].

Definition sample_channel : Channel :=
  update_from_yml (Some sample_settings) default_channel.

(** The same channel with the two thresholds the other way round:
    watering below one quarter, alarming below one half. *)
Definition inverted_settings : gmap string pyval :=
  list_to_map [ ("water_level", PyNum 0.25); ("alarm_level", PyNum 0.5) ].

Definition inverted_channel : Channel :=
  update_from_yml (Some inverted_settings) sample_channel.

(** ** Settings load in [main]

    The loop of [main] that hands each channel its section of the settings
    document: [config.get("channel{}".format(channel.channel), None)]
    followed by [channel.update_from_yml(ch)].  The document maps section
    names to mappings; a section written as YAML null is [None]. *)
Definition section_name (c : Channel) : string :=
  "channel" +:+ pretty (channel c).

Definition load_settings (config : gmap string (option (gmap string pyval)))
    (cs : list Channel) : list Channel :=
  (λ c, update_from_yml (default None (config !! section_name c)) c) <$> cs.

(** ** More vocabulary *)

(** A value Python treats as a number: a bool, an int or a float. *)
Definition numeric (v : pyval) : bool :=
  match Py.num_of v with
  | Some _ => true
  | None => false
  end.

(** A number that converts to a float: a bool, a float, or an int of
    magnitude below [float_overflow]. *)
Definition in_float_range (v : pyval) : bool :=
  match v with
  | PyBool _ | PyNum _ => true
  | PyInt z => Z.abs z <? Py.float_overflow
  | PyNone | PyStr _ => false
  end.

(** The sample channel with a pump speed that is an int too large for a
    float. *)
Definition oversized_channel : Channel :=
  update_from_yml (Some (list_to_map [("pump_speed", PyInt (2 ^ 1024))]))
    sample_channel.

Definition is_warning (e : event) : bool :=
  match e with
  | LogWarning _ _ _ => true
  | _ => false
  end.

Definition is_info (e : event) : bool :=
  match e with
  | LogInfo _ _ _ => true
  | _ => false
  end.

(** The sample channel with a water level that is no number. *)
Definition miswritten_channel : Channel :=
  update_from_yml (Some (list_to_map [("water_level", PyStr "half")]))
    sample_channel.

(** Every component of every colour of the palette lies in [[lo, hi]]. *)
Definition palette_within (lo hi : Z) (r : list colour) : Prop :=
  Forall (λ c, ∀ i, lo <= component c i <= hi) r.

(** The sample channel with an active sensor that reads one quarter and
    has logged the given history. *)
Definition logged_channel (readings : list Q) : Channel :=
  {| channel := channel sample_channel;
     sensor := mkMoisture 1 0.25 true readings (PyNum 0.7) (PyNum 26.7);
     pump := pump sample_channel;
     water_level := water_level sample_channel;
     alarm_level := alarm_level sample_channel;
     auto_water := auto_water sample_channel;
     pump_speed := pump_speed sample_channel;
     pump_time := pump_time sample_channel;
     watering_delay := watering_delay sample_channel;
     wet_point := wet_point sample_channel;
     dry_point := dry_point sample_channel;
     last_dose := last_dose sample_channel;
     icon := icon sample_channel;
     enabled := enabled sample_channel;
     alarm := alarm sample_channel;
     title := title sample_channel |}.

(** A font in which every string is 7 wide and 12 high. *)
Definition sample_getsize (s : string) : Z * Z := (7, 12).

(** * Properties *)

(** ** Auxiliary facts *)

Lemma Qltb_lt (x y : Q) : Py.Qltb x y = true ↔ (x < y)%Q.
Proof.
  unfold Py.Qltb. pose proof (Qlt_alt x y) as H.
  destruct (x ?= y)%Q; split; intros H'; try congruence;
    try reflexivity;
    first [ apply H; reflexivity | apply H in H'; congruence ].
Qed.

Lemma Qltb_ge (x y : Q) : Py.Qltb x y = false ↔ (y <= x)%Q.
Proof.
  pose proof (Qltb_lt x y) as H.
  destruct (Py.Qltb x y); split; intros H'; try congruence.
  - exfalso. apply (Qle_not_lt _ _ H'). apply H. reflexivity.
  - apply Qnot_lt_le. intros Hlt. apply H in Hlt. congruence.
Qed.

Ltac eff_cbn :=
  cbn -[Qminus Qplus Qmult Qcompare Py.float_gt Py.float_lt Py.num_of
        Py.truthy Py.format_2f Py.times_100] in *.

Ltac run_eff :=
  unfold state_after, events_of, outcome, mbind, mret, Eff_bind, Eff_ret,
    get_state, modify, emit, lift in *;
  eff_cbn.

Ltac case_cond :=
  match goal with
  | |- context [Py.truthy ?v] => destruct (Py.truthy v) eqn:?
  | |- context [Py.float_lt ?x ?v] => destruct (Py.float_lt x v) as [[|]|] eqn:?
  | |- context [Py.float_gt ?x ?v] => destruct (Py.float_gt x v) as [[|]|] eqn:?
  | |- context [Py.times_100 ?v] => destruct (Py.times_100 v) eqn:?
  | |- context [Py.format_2f ?v] => destruct (Py.format_2f v) as [[]|] eqn:?
  | |- context [Py.num_of ?v] => destruct (Py.num_of v) eqn:?
  | |- context [negb (alarm ?c)] => is_var c; destruct (alarm c) eqn:?
  end; eff_cbn.

(** What [water] does, case by case. *)
Lemma water_eq (t : clock) (c : Channel) :
  water t c =
    if negb (Py.truthy (auto_water c)) then (Ok false, c, [])
    else match Py.float_gt (t_check t - last_dose c)%Q (watering_delay c) with
         | Ok true =>
             (Ok true, set_last_dose (t_dose t) c,
              [PumpDose (pump c) (pump_speed c) (pump_time c) false])
         | Ok false => (Ok false, c, [])
         | Raise e => (Raise e, c, [])
         end.
Proof.
  unfold water. run_eff. repeat case_cond; reflexivity.
Qed.

(** [update] never lowers the alarm flag and writes nothing but [alarm] and
    [last_dose]. *)
Lemma update_alarm_kept (t : clock) (c : Channel) :
  alarm c = true → alarm (state_after (update t c)) = true.
Proof.
  intros Ha. unfold update, water. run_eff.
  repeat case_cond; cbn; congruence.
Qed.

Lemma update_frame (t : clock) (c : Channel) :
  let c' := state_after (update t c) in
  channel c' = channel c ∧ sensor c' = sensor c ∧ pump c' = pump c ∧
  water_level c' = water_level c ∧ alarm_level c' = alarm_level c ∧
  auto_water c' = auto_water c ∧ pump_speed c' = pump_speed c ∧
  pump_time c' = pump_time c ∧ watering_delay c' = watering_delay c ∧
  wet_point c' = wet_point c ∧ dry_point c' = dry_point c ∧
  icon c' = icon c ∧ enabled c' = enabled c ∧ title c' = title c.
Proof.
  unfold update, water. run_eff.
  repeat case_cond; cbn; repeat split; reflexivity.
Qed.

Lemma run_ticks_cons (t : tick) (ts : list tick) (c : Channel) :
  run_ticks (t :: ts) c = run_ticks ts (run_tick t c).
Proof. reflexivity. Qed.

Lemma sense_alarm (sat : Q) (c : Channel) : alarm (sense sat c) = alarm c.
Proof. reflexivity. Qed.

Lemma run_ticks_alarm_kept (ts : list tick) (c : Channel) :
  alarm c = true → alarm (run_ticks ts c) = true.
Proof.
  revert c. induction ts as [|t ts IH]; intros c Ha; [exact Ha|].
  rewrite run_ticks_cons. apply IH. unfold run_tick.
  apply update_alarm_kept. exact Ha.
Qed.

(** Laws of the effect monad, pointwise. *)
Lemma bind_lift_ok {S E A B} (a : A) (k : A → Eff S E B) (s : S) :
  (lift (Ok a) ≫= k) s = k a s.
Proof.
  unfold mbind, Eff_bind, lift. destruct (k a s) as [[r s'] ev]. reflexivity.
Qed.

Lemma bind_lift_raise {S E A B} (e : exn) (k : A → Eff S E B) (s : S) :
  (lift (Raise e) ≫= k) s = (Raise e, s, []).
Proof. reflexivity. Qed.

Lemma bind_ret {S E A B} (a : A) (k : A → Eff S E B) (s : S) :
  (mret a ≫= k) s = k a s.
Proof.
  unfold mbind, Eff_bind, mret, Eff_ret.
  destruct (k a s) as [[r s'] ev]. reflexivity.
Qed.

Lemma bind_ret_unit {S E} (m : Eff S E unit) (s : S) :
  (m ≫= λ _, mret tt) s = m s.
Proof.
  unfold mbind, Eff_bind, mret, Eff_ret.
  destruct (m s) as [[[[]|e] s'] ev]; [|reflexivity].
  rewrite app_nil_r. reflexivity.
Qed.

(** What [handle_button] does for each of the four pins and for any
    other. *)
Lemma handle_button_A (g : Globals) :
  handle_button 5 g =
    if current_subview g =? 0 then
      let v := (current_view g + 1) `mod` Z.of_nat (length views) in
      (Ok tt, mkGlobals (channels g) v 0 (alarm_flag g),
       ["Switched to view " +:+ pretty v])
    else (Ok tt, g, []).
Proof.
  destruct g as [cs cv [|sv|sv] af]; reflexivity.
Qed.

Lemma handle_button_B (g : Globals) :
  handle_button 6 g =
    (Ok tt,
     mkGlobals (set_alarm false <$> channels g) (current_view g)
       (current_subview g) (Some false),
     []).
Proof. reflexivity. Qed.

Lemma handle_button_X (g : Globals) :
  handle_button 16 g =
    match Py.index views (current_view g) with
    | Ok (Tuple vs) =>
        match py_mod (current_subview g + 1) (Z.of_nat (length vs)) with
        | Ok v =>
            (Ok tt, set_current_subview v g,
             ["Switched to subview " +:+ pretty v])
        | Raise e =>
            (Raise e, set_current_subview (current_subview g + 1) g, [])
        end
    | Ok (Single _) => (Ok tt, g, [])
    | Raise e => (Raise e, g, [])
    end.
Proof.
  unfold handle_button.
  change (Py.index_of 16 BUTTONS) with (Ok 2 : result Z).
  rewrite bind_lift_ok.
  change (Py.index LABELS 2) with (Ok "X"%string : result string).
  rewrite bind_lift_ok.
  change (String.eqb "X" "A") with false.
  change (String.eqb "X" "B") with false.
  change (String.eqb "X" "X") with true.
  change (String.eqb "X" "Y") with false.
  cbv iota. rewrite !bind_ret, bind_ret_unit.
  run_eff.
  destruct (Py.index views (current_view g)) as [[v|vs]|e]; cbn;
    try reflexivity.
  destruct (py_mod (current_subview g + 1) (Z.of_nat (length vs)));
    reflexivity.
Qed.

Lemma handle_button_Y (g : Globals) : handle_button 24 g = (Ok tt, g, []).
Proof. reflexivity. Qed.

Lemma handle_button_other (pin : Z) (g : Globals) :
  pin ∉ BUTTONS → handle_button pin g = (Raise ValueError, g, []).
Proof.
  unfold BUTTONS. rewrite !not_elem_of_cons.
  intros (H5 & H6 & H16 & H24 & _).
  unfold handle_button, BUTTONS. cbn [Py.index_of].
  rewrite (proj2 (Z.eqb_neq pin 5) H5), (proj2 (Z.eqb_neq pin 6) H6),
    (proj2 (Z.eqb_neq pin 16) H16), (proj2 (Z.eqb_neq pin 24) H24).
  apply bind_lift_raise.
Qed.

(** Every pin is one of the four buttons or none of them. *)
Lemma pin_cases (pin : Z) :
  pin = 5 ∨ pin = 6 ∨ pin = 16 ∨ pin = 24 ∨ pin ∉ BUTTONS.
Proof.
  destruct (decide (pin = 5)); [tauto|].
  destruct (decide (pin = 6)); [tauto|].
  destruct (decide (pin = 16)); [tauto|].
  destruct (decide (pin = 24)); [tauto|].
  do 4 right. unfold BUTTONS. rewrite !not_elem_of_cons.
  repeat split; try assumption. apply not_elem_of_nil.
Qed.

Lemma dosed_app (e1 e2 : list event) :
  dosed (e1 ++ e2) = dosed e1 || dosed e2.
Proof. apply existsb_app. Qed.

(** Within the cooldown window [update] requests no dose and keeps
    [last_dose]. *)
Lemma update_within_window (t : clock) (c : Channel) (d : Q) :
  Py.num_of (watering_delay c) = Some d →
  (t_check t - last_dose c <= d)%Q →
  dosed (events_of (update t c)) = false ∧
  last_dose (state_after (update t c)) = last_dose c.
Proof.
  intros Hd Hle.
  assert (Hgt : Py.float_gt (t_check t - last_dose c)%Q (watering_delay c)
                = Ok false).
  { unfold Py.float_gt. rewrite Hd. f_equal. apply Qltb_ge. exact Hle. }
  unfold update, water. run_eff.
  repeat case_cond; cbn; try (split; reflexivity); congruence.
Qed.

Lemma ticks_within_window (ts : list tick) (c : Channel) (d : Q) :
  Py.num_of (watering_delay c) = Some d →
  Forall (λ t, (t_check (now t) - last_dose c <= d)%Q) ts →
  dosed (run_ticks_events ts c) = false ∧
  last_dose (run_ticks ts c) = last_dose c.
Proof.
  revert c. induction ts as [|t ts IH]; intros c Hd Hall.
  - split; reflexivity.
  - apply Forall_cons in Hall as [Ht Hts].
    destruct (update_within_window (now t) (sense (reading t) c) d Hd Ht)
      as [Hno Hlast].
    pose proof (update_frame (now t) (sense (reading t) c)) as Hfr.
    cbv zeta in Hfr.
    destruct Hfr as (_ & _ & _ & _ & _ & _ & _ & _ & Hdelay & _).
    change (last_dose (sense (reading t) c)) with (last_dose c) in Hlast.
    change (watering_delay (sense (reading t) c)) with (watering_delay c)
      in Hdelay.
    destruct (IH (run_tick t c)) as [IHno IHlast].
    + unfold run_tick. rewrite Hdelay. exact Hd.
    + unfold run_tick. rewrite Hlast. exact Hts.
    + cbn [run_ticks_events]. rewrite run_ticks_cons, dosed_app, Hno, IHno.
      split; [reflexivity|]. rewrite IHlast. exact Hlast.
Qed.

(** ** The channel state machine *)

(** C3 — Dormant channel.  For a channel whose [enabled] attribute is
    false (or any other falsy value), [update] is a no-op whatever the
    sensor reads: it returns normally, the channel object is left exactly
    as it was ([alarm] and [last_dose] included) and nothing is emitted,
    neither a pump dose nor a log record. *)
Theorem update_disabled_noop (t : clock) (sat : Q) (c : Channel) :
  Py.truthy (enabled c) = false →
  update t (sense sat c) = (Ok tt, sense sat c, []).
Proof.
  intros Hoff. unfold update. run_eff. rewrite Hoff. reflexivity.
Qed.

Lemma update_disabled_noop_witness :
  enabled default_channel = PyBool false ∧
  update (mkClock 100 100) (sense 0.125 default_channel)
  = (Ok tt, sense 0.125 default_channel, []).
Proof.
  split; [reflexivity|].
  apply (update_disabled_noop (mkClock 100 100) 0.125 default_channel).
  reflexivity.
Defined.

(** C1 — Alarm latch.  Once the [alarm] flag of a channel is true, a call
    of [update] leaves it true, and so does any number of ticks whatever
    the sensor reads on them (readings above [alarm_level] included) and a
    settings load; of the button events only "B" (pin 6, the acknowledge
    action) touches the flag, and it clears it. *)
Theorem alarm_latch (g : Globals) (i : nat) (c : Channel)
    (ts : list tick) (t : clock) (config : option (gmap string pyval)) :
  channels g !! i = Some c →
  alarm c = true →
  alarm (state_after (update t c)) = true ∧
  alarm (run_ticks ts c) = true ∧
  alarm (update_from_yml config c) = true ∧
  (∀ pin, pin ≠ 6 → alarm <$> channels (press pin g) !! i = Some true) ∧
  alarm <$> channels (press 6 g) !! i = Some false.
Proof.
  intros Hi Ha. repeat split.
  - apply update_alarm_kept, Ha.
  - apply run_ticks_alarm_kept, Ha.
  - destruct config; exact Ha.
  - intros pin Hpin. unfold press.
    destruct (pin_cases pin) as [->|[->|[->|[->|Hother]]]].
    + rewrite handle_button_A.
      destruct (current_subview g =? 0); cbn; rewrite Hi; cbn; congruence.
    + congruence.
    + rewrite handle_button_X.
      destruct (Py.index views (current_view g)) as [[v|vs]|e]; cbn;
        try (rewrite Hi; cbn; congruence).
      destruct (py_mod _ _); cbn; rewrite Hi; cbn; congruence.
    + rewrite handle_button_Y. cbn. rewrite Hi. cbn. congruence.
    + rewrite handle_button_other by exact Hother.
      cbn. rewrite Hi. cbn. congruence.
  - unfold press. rewrite handle_button_B. cbn.
    rewrite list_lookup_fmap, Hi. reflexivity.
Qed.

Lemma alarm_latch_witness :
  let c := set_alarm true sample_channel in
  let g := mkGlobals [c] 1 1 None in
  alarm (run_ticks [mkTick 0.75 (mkClock 5 5); mkTick 1 (mkClock 6 6)] c)
  = true ∧
  alarm <$> channels (press 6 g) !! 0%nat = Some false.
Proof.
  intros c g.
  destruct (alarm_latch g 0 c
              [mkTick 0.75 (mkClock 5 5); mkTick 1 (mkClock 6 6)]
              (mkClock 5 5) None) as (_ & Hticks & _ & _ & Hack);
    [reflexivity | reflexivity | split; assumption].
Defined.

(** C10 — Implicit alarm gating.  [update] raises the alarm flag only on
    a tick on which the channel is enabled and the reading is below
    [water_level] as well as below [alarm_level]; in particular, when
    [alarm_level] lies above [water_level], a reading from [water_level]
    up to (excluding) [alarm_level] makes [update] do nothing at all, so
    the alarm is not raised. *)
Theorem alarm_gated_by_water_level (t : clock) (c : Channel) :
  (alarm c = false → alarm (state_after (update t c)) = true →
   Py.truthy (enabled c) = true ∧
   Py.float_lt (saturation (sensor c)) (water_level c) = Ok true ∧
   Py.float_lt (saturation (sensor c)) (alarm_level c) = Ok true) ∧
  (∀ w a : Q,
     water_level c = PyNum w → alarm_level c = PyNum a →
     (w < a)%Q →
     (w <= saturation (sensor c))%Q → (saturation (sensor c) < a)%Q →
     update t c = (Ok tt, c, [])).
Proof.
  split.
  - intros Hoff. unfold update, water. run_eff.
    repeat case_cond; cbn; intros Hon; try congruence;
      repeat split; reflexivity.
  - intros w a Hw Ha _ Hle _. unfold update. run_eff.
    destruct (Py.truthy (enabled c)); [|reflexivity]. eff_cbn.
    unfold Py.float_lt. rewrite Hw. cbn [Py.num_of].
    rewrite (proj2 (Qltb_ge _ _) Hle). reflexivity.
Qed.

Lemma alarm_gated_by_water_level_witness :
  (let c := sense 0.125 sample_channel in
   alarm c = false ∧
   alarm (state_after (update (mkClock 1 1) c)) = true ∧
   Py.float_lt (saturation (sensor c)) (water_level c) = Ok true) ∧
  (let c := sense 0.375 inverted_channel in
   water_level c = PyNum 0.25 ∧ alarm_level c = PyNum 0.5 ∧
   Py.truthy (enabled c) = true ∧
   update (mkClock 1 1) c = (Ok tt, c, [])).
Proof.
  split.
  - intros c.
    destruct (alarm_gated_by_water_level (mkClock 1 1) c) as [Honly _].
    assert (Hoff : alarm c = false) by reflexivity.
    assert (Hon : alarm (state_after (update (mkClock 1 1) c)) = true)
      by (vm_compute; reflexivity).
    destruct (Honly Hoff Hon) as (_ & Hwater & _).
    repeat split; assumption.
  - intros c.
    destruct (alarm_gated_by_water_level (mkClock 1 1) c) as [_ Hbetween].
    assert (Hnoop : update (mkClock 1 1) c = (Ok tt, c, [])).
    { apply (Hbetween 0.25 0.5)%Q;
        first [ vm_compute; reflexivity | vm_compute; congruence ]. }
    repeat split; try assumption; vm_compute; reflexivity.
Defined.

(** When the channel is enabled and thirsty, the doses [update] requests
    are those [water] requests. *)
Lemma update_doses (t : clock) (c : Channel) :
  Py.truthy (enabled c) = true →
  Py.float_lt (saturation (sensor c)) (water_level c) = Ok true →
  List.filter is_dose (events_of (update t c)) = events_of (water t c) ∧
  last_dose (state_after (update t c)) = last_dose (state_after (water t c)).
Proof.
  intros Hen Hsat. unfold update, water. run_eff. rewrite Hen, Hsat.
  eff_cbn. repeat case_cond; cbn; split; reflexivity.
Qed.

Lemma dosed_filter (evs : list event) :
  dosed evs = match List.filter is_dose evs with [] => false | _ => true end.
Proof.
  induction evs as [|e evs IH]; [reflexivity|].
  cbn. destruct (is_dose e); cbn; [reflexivity | exact IH].
Qed.

(** C2 — Watering cooldown.  For an enabled channel with automatic
    watering whose reading is below [water_level], [update] requests a dose
    exactly when the time since [last_dose] exceeds [watering_delay]; it
    then requests one non-blocking dose of [(pump_speed, pump_time)] and
    stores the current time in [last_dose], so that on later ticks taken
    within [watering_delay] seconds of that time no further dose is
    requested. *)
Theorem watering_cooldown (c : Channel) (t : clock) (d : Q)
    (later : list tick) :
  Py.truthy (enabled c) = true →
  Py.truthy (auto_water c) = true →
  Py.float_lt (saturation (sensor c)) (water_level c) = Ok true →
  Py.num_of (watering_delay c) = Some d →
  let r := update t c in
  (dosed (events_of r) = true ↔ (d < t_check t - last_dose c)%Q) ∧
  (dosed (events_of r) = true →
   List.filter is_dose (events_of r)
   = [PumpDose (pump c) (pump_speed c) (pump_time c) false] ∧
   last_dose (state_after r) = t_dose t ∧
   (Forall (λ t', (t_check (now t') - t_dose t <= d)%Q) later →
    dosed (run_ticks_events later (state_after r)) = false)) ∧
  (dosed (events_of r) = false →
   last_dose (state_after r) = last_dose c).
Proof.
  intros Hen Hauto Hsat Hd r.
  destruct (update_doses t c Hen Hsat) as [Hev Hlast].
  fold r in Hev, Hlast.
  rewrite dosed_filter, Hev, Hlast, water_eq, Hauto.
  unfold Py.float_gt. rewrite Hd. cbn [negb].
  destruct (Py.Qltb d (t_check t - last_dose c)) eqn:Hcmp; cbn.
  - apply Qltb_lt in Hcmp. repeat split; try congruence; try tauto.
    intros Hlater.
    pose proof (update_frame t c) as Hfr. cbv zeta in Hfr. fold r in Hfr.
    destruct Hfr as (_ & _ & _ & _ & _ & _ & _ & _ & Hdelay & _).
    apply (ticks_within_window later (state_after r) d).
    + rewrite Hdelay. exact Hd.
    + rewrite Hlast, water_eq, Hauto. unfold Py.float_gt. rewrite Hd.
      cbn [negb]. rewrite (proj2 (Qltb_lt _ _) Hcmp). exact Hlater.
  - apply Qltb_ge in Hcmp. repeat split; try congruence.
    intros Hlt. exfalso. exact (Qle_not_lt _ _ Hcmp Hlt).
Qed.

Lemma watering_cooldown_witness :
  let c := sense 0.125 sample_channel in
  let r := update (mkClock 31 32) c in
  dosed (events_of r) = true ∧
  last_dose (state_after r) = 32%Q ∧
  dosed (run_ticks_events
           [mkTick 0.125 (mkClock 40 40); mkTick 0.125 (mkClock 62 62)]
           (state_after r)) = false.
Proof.
  intros c r.
  destruct (watering_cooldown c (mkClock 31 32) 30
              [mkTick 0.125 (mkClock 40 40); mkTick 0.125 (mkClock 62 62)])
    as (Hiff & Hfire & _); try (vm_compute; reflexivity).
  assert (Hdosed : dosed (events_of r) = true).
  { apply Hiff. vm_compute. reflexivity. }
  destruct (Hfire Hdosed) as (_ & Hlast & Hquiet).
  split; [exact Hdosed | split; [exact Hlast|]].
  apply Hquiet. repeat constructor; vm_compute; congruence.
Defined.

(** ** Colour interpolation *)

Lemma index_in_range {A : Type} (l : list A) (i : Z) :
  0 <= i < Z.of_nat (length l) →
  ∃ x, l !! Z.to_nat i = Some x ∧ Py.index l i = Ok x.
Proof.
  intros [Hlo Hhi].
  destruct (lookup_lt_is_Some_2 l (Z.to_nat i)) as [x Hx]; [lia|].
  exists x. split; [exact Hx|]. unfold Py.index.
  rewrite (proj2 (Z.ltb_ge i 0) Hlo), (proj2 (Z.leb_le 0 i) Hlo),
    (proj2 (Z.ltb_lt _ _) Hhi), Hx.
  reflexivity.
Qed.

Lemma index_first {A : Type} (l : list A) (x : A) :
  head l = Some x → Py.index l 0 = Ok x.
Proof.
  intros Hx. rewrite head_lookup in Hx.
  destruct (index_in_range l 0) as (y & Hy & ->).
  { apply lookup_lt_Some in Hx. lia. }
  change (Z.to_nat 0) with 0%nat in Hy. congruence.
Qed.

Lemma index_last {A : Type} (l : list A) (x : A) :
  last l = Some x → Py.index l (-1) = Ok x.
Proof.
  intros Hx. rewrite last_lookup in Hx.
  assert (Hlen : (0 < length l)%nat).
  { destruct l; [discriminate | cbn; lia]. }
  unfold Py.index. change (-1 <? 0) with true. cbv iota.
  rewrite (proj2 (Z.leb_le 0 (-1 + Z.of_nat (length l)))) by lia.
  rewrite (proj2 (Z.ltb_lt (-1 + Z.of_nat (length l)) _)) by lia.
  replace (Z.to_nat (-1 + Z.of_nat (length l))) with (Nat.pred (length l))
    by lia.
  rewrite Hx. reflexivity.
Qed.

(** Where [int] and [math.floor] agree. *)
Lemma int_floor_nonneg (x : Q) : (0 <= x)%Q → Py.int x = Py.floor x.
Proof.
  destruct x as [n d]. unfold Qle, Py.int, Py.floor. cbn. intros Hn.
  apply Z.quot_div_nonneg; lia.
Qed.

(** C4 (as stated) fails: on the four-colour bar palette, input 0 yields
    the last colour, not the first, and input 1 yields the first. *)
Lemma indicator_color_endpoints_counterexample :
  (2 <= length bar_colours)%nat ∧
  indicator_color 0 (Some bar_colours) = Ok (254, 192, 192) ∧
  Py.index bar_colours 0 = Ok (192, 225, 254) ∧
  indicator_color 1 (Some bar_colours) = Ok (192, 225, 254) ∧
  Py.index bar_colours (-1) = Ok (254, 192, 192) ∧
  ¬ (indicator_color 0 (Some bar_colours) = Py.index bar_colours 0 ∧
     indicator_color 1 (Some bar_colours) = Py.index bar_colours (-1)).
Proof.
  repeat split; try (vm_compute; lia).
  vm_compute. intros [H _]. discriminate H.
Qed.

(** C4 — Colour endpoints, amended.  The function inverts its input
    before it interpolates, so for a palette of two or more colours input
    1 is mapped to the first palette colour and input 0 to the last. *)
Theorem indicator_color_endpoints (r : list colour) :
  (2 <= length r)%nat →
  ∃ first final,
    head r = Some first ∧ last r = Some final ∧
    indicator_color 1 (Some r) = Ok first ∧
    indicator_color 0 (Some r) = Ok final.
Proof.
  intros Hlen.
  destruct (head r) as [first|] eqn:Hfirst;
    [|destruct r; [cbn in Hlen; lia | discriminate]].
  destruct (last r) as [final|] eqn:Hfinal;
    [|rewrite last_lookup in Hfinal;
      apply lookup_ge_None in Hfinal; lia].
  exists first, final. repeat split.
  - unfold indicator_color. change (default bar_colours (Some r)) with r.
    change (Qeq_bool (1 - 1) 1) with false.
    change (Qeq_bool (1 - 1) 0) with true.
    cbv iota. apply index_first, Hfirst.
  - unfold indicator_color. change (default bar_colours (Some r)) with r.
    change (Qeq_bool (1 - 0) 1) with true.
    cbv iota. apply index_last, Hfinal.
Qed.

Lemma indicator_color_endpoints_witness :
  indicator_color 1 (Some label_colours) = Ok (32, 137, 251) ∧
  indicator_color 0 (Some label_colours) = Ok (254, 82, 82).
Proof.
  destruct (indicator_color_endpoints label_colours)
    as (first & final & Hfirst & Hfinal & H1 & H0); [cbn; lia|].
  injection Hfirst as <-. injection Hfinal as <-.
  split; assumption.
Defined.


(** The scaled, inverted input of an interior value lies strictly inside
    the index range of the palette. *)
Lemma scaled_interior (value : Q) (n : Z) :
  2 <= n → (0 < value)%Q → (value < 1)%Q →
  let scaled := ((1 - value) * inject_Z (n - 1))%Q in
  (0 < scaled)%Q ∧ (scaled < inject_Z (n - 1))%Q.
Proof.
  intros Hn Hlo Hhi scaled.
  assert (Hk : (1 <= inject_Z (n - 1))%Q).
  { change 1%Q with (inject_Z 1). rewrite <- Zle_Qle. lia. }
  unfold scaled. split; nra.
Qed.

Lemma floor_interior (x : Q) (k : Z) :
  (0 < x)%Q → (x < inject_Z k)%Q →
  0 <= Py.floor x <= k - 1 ∧
  (0 <= x - inject_Z (Py.floor x))%Q ∧ (x - inject_Z (Py.floor x) < 1)%Q.
Proof.
  intros Hlo Hhi. unfold Py.floor.
  pose proof (Qfloor_le x) as Hle. pose proof (Qlt_floor x) as Hlt.
  assert (H0 : (inject_Z 0 < inject_Z (Qfloor x + 1))%Q).
  { change (inject_Z 0) with 0%Q. lra. }
  assert (Hk : (inject_Z (Qfloor x) < inject_Z k)%Q) by lra.
  rewrite <- Zlt_Qlt in H0, Hk.
  rewrite inject_Z_plus in Hlt. change (inject_Z 1) with 1%Q in Hlt.
  repeat split; try lia; lra.
Qed.



(** ** Navigation *)

Lemma nav_in_range_cases (g : Globals) :
  nav_in_range g ↔
  (current_view g = 0 ∧ current_subview g = 0) ∨
  ((current_view g = 1 ∨ current_view g = 2 ∨ current_view g = 3) ∧
   (current_subview g = 0 ∨ current_subview g = 1)).
Proof.
  unfold nav_in_range. split.
  - intros [Hcv (e & He & Hsv)]. cbn in Hcv.
    assert (Hc : current_view g = 0 ∨ current_view g = 1 ∨
                 current_view g = 2 ∨ current_view g = 3) by lia.
    destruct Hc as [Hc|[Hc|[Hc|Hc]]]; rewrite Hc in He;
      cbn in He; (injection He as <-); cbn in Hsv; lia.
  - intros [[-> ->]|[Hc Hs]].
    + split; [cbn; lia|]. eexists. split; [reflexivity|]. cbn. lia.
    + split; [cbn; lia|].
      destruct Hc as [-> | [-> | ->]]; eexists; (split; [reflexivity|]);
        cbn; lia.
Qed.

Lemma index_views_tuple (cv : Z) :
  cv = 1 ∨ cv = 2 ∨ cv = 3 →
  ∃ vs, Py.index views cv = Ok (Tuple vs) ∧ length vs = 2%nat.
Proof.
  intros [-> | [-> | ->]]; eexists; split; reflexivity.
Qed.

Lemma press_nav_in_range (pin : Z) (g : Globals) :
  nav_in_range g → nav_in_range (press pin g).
Proof.
  rewrite !nav_in_range_cases. intros Hg. unfold press.
  destruct (pin_cases pin) as [->|[->|[->|[->|Hother]]]].
  - rewrite handle_button_A.
    destruct (current_subview g =? 0) eqn:Hs; [|exact Hg].
    cbn. destruct Hg as [[-> _] | [[-> | [-> | ->]] _]]; vm_compute; tauto.
  - rewrite handle_button_B. exact Hg.
  - rewrite handle_button_X.
    destruct Hg as [[Hc Hs]|[Hc Hs]].
    + rewrite Hc. cbn. left. split; assumption.
    + destruct (index_views_tuple _ Hc) as (vs & -> & Hlen).
      rewrite Hlen. unfold py_mod. change (Z.of_nat 2 =? 0) with false.
      cbv iota. unfold set_current_subview. cbn [current_view current_subview].
      pose proof (Z.mod_pos_bound (current_subview g + 1) 2 eq_refl).
      change (Z.of_nat 2) with 2. right. split; [exact Hc|].
      unfold state_after. cbn [fst snd current_subview]. lia.
  - rewrite handle_button_Y. exact Hg.
  - rewrite handle_button_other by exact Hother. exact Hg.
Qed.

(** C6 — Navigation bounds invariant.  From the initial globals
    ([current_view = 0], [current_subview = 0]) and after any sequence of
    button events, [current_view] addresses an entry of [views] and
    [current_subview] one of that entry's sub-views, so the main loop
    always finds a view to render. *)
Theorem navigation_in_range (pins : list Z) (start : Q)
    (moisture : Z → Moisture) :
  let g := presses pins (initial_globals start moisture) in
  nav_in_range g ∧ ∃ v, rendered_view g = Ok v.
Proof.
  cbv zeta.
  assert (Hinv : nav_in_range
                   (presses pins (initial_globals start moisture))).
  { assert (H0 : nav_in_range (initial_globals start moisture)).
    { apply nav_in_range_cases. left. split; reflexivity. }
    revert H0. generalize (initial_globals start moisture).
    induction pins as [|pin pins IH]; intros g Hg; [exact Hg|].
    apply (IH (press pin g)), press_nav_in_range, Hg. }
  split; [exact Hinv|].
  apply nav_in_range_cases in Hinv. unfold rendered_view.
  destruct Hinv as [[-> _]|[Hc Hs]]; [eexists; reflexivity|].
  destruct Hc as [-> | [-> | ->]], Hs as [->| ->]; eexists; reflexivity.
Qed.

(** C7 — Next-view gating and wraparound.  The "A" button (pin 5) returns
    normally and leaves the channels alone; when [current_subview] is 0 it
    advances [current_view] by one modulo the number of views, so that from
    the last index it returns to 0, and leaves [current_subview] at 0; when
    [current_subview] is not 0 it changes nothing at all. *)
Theorem next_view_gated (g : Globals) :
  let g' := press 5 g in
  let n := Z.of_nat (length views) in
  outcome (handle_button 5 g) = Ok tt ∧
  channels g' = channels g ∧
  (current_subview g = 0 →
   current_view g' = (current_view g + 1) `mod` n ∧
   current_subview g' = 0 ∧
   (current_view g = n - 1 → current_view g' = 0)) ∧
  (current_subview g ≠ 0 → g' = g).
Proof.
  cbv zeta. unfold press. rewrite handle_button_A.
  destruct (current_subview g =? 0) eqn:Hs.
  - apply Z.eqb_eq in Hs.
    split; [reflexivity|]. split; [reflexivity|]. split.
    + intros _. split; [reflexivity|]. split; [reflexivity|].
      cbn [state_after fst snd current_view]. intros ->. reflexivity.
    + intros Hne. contradiction.
  - apply Z.eqb_neq in Hs.
    split; [reflexivity|]. split; [reflexivity|]. split.
    + intros Heq. contradiction.
    + intros _. reflexivity.
Qed.

Lemma next_view_gated_witness :
  current_view (press 5 (mkGlobals [] 3 0 None)) = 0 ∧
  press 5 (mkGlobals [] 3 1 None) = mkGlobals [] 3 1 None.
Proof.
  destruct (next_view_gated (mkGlobals [] 3 0 None))
    as (_ & _ & Hzero & _).
  destruct (next_view_gated (mkGlobals [] 3 1 None))
    as (_ & _ & _ & Hother).
  split.
  - apply Hzero; reflexivity.
  - apply Hother. discriminate.
Defined.

Lemma config_and_sensor_idem (c : Channel) :
  config_and_sensor (set_alarm false c) = config_and_sensor c.
Proof. reflexivity. Qed.

(** C8 — Acknowledge effect and frame.  The "B" button (pin 6) leaves every
    channel with its alarm flag false, whatever the flags and the
    navigation indices were; and no button event, valid pin or not, changes
    anything else of any channel: settings, sensor, identity and time of
    the last dose stay as they were, and every pin other than 6 leaves the
    channel list untouched. *)
Theorem acknowledge_and_frame (pin : Z) (g : Globals) :
  Forall (λ c, alarm c = false) (channels (press 6 g)) ∧
  config_and_sensor <$> channels (press pin g)
  = config_and_sensor <$> channels g ∧
  (pin ≠ 6 → channels (press pin g) = channels g).
Proof.
  split; [|split].
  - unfold press. rewrite handle_button_B. cbn.
    apply Forall_fmap, Forall_true. reflexivity.
  - unfold press.
    destruct (pin_cases pin) as [->|[->|[->|[->|Hother]]]].
    + rewrite handle_button_A. destruct (current_subview g =? 0); reflexivity.
    + rewrite handle_button_B. cbn. rewrite <- list_fmap_compose.
      apply list_fmap_ext. intros _ c _. apply config_and_sensor_idem.
    + rewrite handle_button_X.
      destruct (Py.index views (current_view g)) as [[v|vs]|e];
        try reflexivity.
      destruct (py_mod _ _); reflexivity.
    + rewrite handle_button_Y. reflexivity.
    + rewrite handle_button_other by exact Hother. reflexivity.
  - intros Hpin. unfold press.
    destruct (pin_cases pin) as [->|[->|[->|[->|Hother]]]].
    + rewrite handle_button_A. destruct (current_subview g =? 0); reflexivity.
    + contradiction.
    + rewrite handle_button_X.
      destruct (Py.index views (current_view g)) as [[v|vs]|e];
        try reflexivity.
      destruct (py_mod _ _); reflexivity.
    + rewrite handle_button_Y. reflexivity.
    + rewrite handle_button_other by exact Hother. reflexivity.
Qed.

Lemma acknowledge_and_frame_witness :
  let g := mkGlobals [set_alarm true sample_channel; inverted_channel]
             2 1 None in
  channels (press 16 g) = channels g ∧
  Forall (λ c, alarm c = false) (channels (press 6 g)).
Proof.
  intros g.
  destruct (acknowledge_and_frame 16 g) as (Hack & _ & Hframe).
  split; [apply Hframe; discriminate | exact Hack].
Defined.

(** ** Settings *)

Lemma attr_recognized (key : string) (c : Channel) :
  is_Some (attr key c) ↔ key ∈ recognized_keys.
Proof.
  unfold attr, recognized_keys. rewrite !elem_of_cons, elem_of_nil.
  repeat match goal with
         | |- context [String.eqb key ?k] =>
             destruct (String.eqb_spec key k) as [->|?]
         end;
    split; intros H; eauto 10; try (destruct H as [? H]; discriminate H);
    intuition congruence.
Qed.

(** C9 — Configuration application.  For every channel and every settings
    mapping, [update_from_yml] returns (it has no failing path) with each
    of the nine recognised attributes set to the mapping's value for its
    key when the key is present and left as it was when the key is absent;
    the rest of the channel is untouched; a key outside the nine
    recognised ones has no influence on the result; and with [None] in
    place of a mapping the channel is left exactly as it was. *)
Theorem update_from_yml_applies (c : Channel) (config : gmap string pyval) :
  (∀ key old,
     attr key c = Some old →
     attr key (update_from_yml (Some config) c)
     = Some (default old (config !! key))) ∧
  (∀ key, key ∈ recognized_keys ↔ is_Some (attr key c)) ∧
  runtime_of (update_from_yml (Some config) c) = runtime_of c ∧
  (∀ key v,
     key ∉ recognized_keys →
     update_from_yml (Some (<[key:=v]> config)) c
     = update_from_yml (Some config) c) ∧
  update_from_yml None c = c.
Proof.
  split; [|split; [|split; [|split]]].
  - intros key old. unfold attr.
    repeat match goal with
           | |- context [String.eqb key ?k] =>
               destruct (String.eqb_spec key k) as [->|?]
           end;
      intros Hold; try discriminate Hold;
      injection Hold as <-; reflexivity.
  - intros key. symmetry. apply attr_recognized.
  - reflexivity.
  - intros key v. unfold recognized_keys. rewrite !not_elem_of_cons.
    intros (H1 & H2 & H3 & H4 & H5 & H6 & H7 & H8 & H9 & _).
    unfold update_from_yml, config_get.
    rewrite !lookup_insert_ne by assumption. reflexivity.
  - reflexivity.
Qed.

Lemma update_from_yml_applies_witness :
  attr "alarm_level" sample_channel = Some (PyNum 0.25) ∧
  attr "water_level" sample_channel = Some (PyNum 0.5) ∧
  update_from_yml (Some (<["colour" := PyStr "red"]> ∅)) sample_channel
  = update_from_yml (Some ∅) sample_channel.
Proof.
  destruct (update_from_yml_applies default_channel sample_settings)
    as (Hset & _ & _ & _ & _).
  destruct (update_from_yml_applies sample_channel ∅)
    as (_ & _ & _ & Hunknown & _).
  split; [|split].
  - unfold sample_channel.
    rewrite (Hset "alarm_level" (PyNum 0.5)) by reflexivity.
    vm_compute. reflexivity.
  - unfold sample_channel.
    rewrite (Hset "water_level" (PyNum 0.5)) by reflexivity.
    vm_compute. reflexivity.
  - apply Hunknown. unfold recognized_keys. rewrite !not_elem_of_cons.
    repeat split; try discriminate. apply not_elem_of_nil.
Defined.

(** * Further properties of the channel state machine *)

Lemma in_float_range_format (v : pyval) :
  in_float_range v = true → Py.format_2f v = Ok tt.
Proof.
  destruct v; cbn; try congruence. intros ->. reflexivity.
Qed.

Lemma numeric_lt (x : Q) (v : pyval) :
  numeric v = true → ∃ b, Py.float_lt x v = Ok b.
Proof.
  unfold numeric, Py.float_lt. destruct (Py.num_of v); [eauto | discriminate].
Qed.

Lemma numeric_gt (x : Q) (v : pyval) :
  numeric v = true → ∃ b, Py.float_gt x v = Ok b.
Proof.
  unfold numeric, Py.float_gt. destruct (Py.num_of v); [eauto | discriminate].
Qed.

Lemma numeric_percent (v : pyval) :
  numeric v = true →
  (∀ z, v = PyInt z → Z.abs (z * 100) < Py.float_overflow) →
  ∃ p, Py.times_100 v = Ok p ∧ Py.format_2f p = Ok tt.
Proof.
  destruct v as [|b|z|q|s]; cbn; intros Hnum Hint; try discriminate.
  - eexists. split; [reflexivity|]. destruct b; reflexivity.
  - eexists. split; [reflexivity|]. cbn.
    rewrite (proj2 (Z.ltb_lt _ _) (Hint z eq_refl)). reflexivity.
  - eexists. split; reflexivity.
Qed.

(** What the comparisons and formats of [update] raise. *)
Lemma float_lt_raises (x : Q) (v : pyval) (e : exn) :
  Py.float_lt x v = Raise e → e = TypeError.
Proof. unfold Py.float_lt. destruct (Py.num_of v); congruence. Qed.

Lemma float_gt_raises (x : Q) (v : pyval) (e : exn) :
  Py.float_gt x v = Raise e → e = TypeError.
Proof. unfold Py.float_gt. destruct (Py.num_of v); congruence. Qed.

Lemma times_100_raises (v : pyval) (e : exn) :
  Py.times_100 v = Raise e → e = TypeError.
Proof. destruct v; cbn; congruence. Qed.

Lemma format_2f_raises (v : pyval) (e : exn) :
  Py.format_2f v = Raise e →
  e = TypeError ∨ e = ValueError ∨ e = OverflowError.
Proof.
  destruct v; cbn; try destruct (_ <? _); intros H; try discriminate H;
    injection H as <-; auto.
Qed.

(** X1 — With numbers in [water_level], [alarm_level] and
    [watering_delay], with [pump_speed] and [pump_time] numbers that
    convert to a float, and with [alarm_level * 100] converting to a float
    when [alarm_level] is an int, a call of [update] returns: none of its
    comparisons and none of its log formats raises. *)
Theorem update_returns_on_numbers (t : clock) (c : Channel) :
  numeric (water_level c) = true →
  numeric (alarm_level c) = true →
  numeric (watering_delay c) = true →
  in_float_range (pump_speed c) = true →
  in_float_range (pump_time c) = true →
  (∀ z, alarm_level c = PyInt z → Z.abs (z * 100) < Py.float_overflow) →
  outcome (update t c) = Ok tt.
Proof.
  intros Hw Ha Hd Hs Ht Hpercent.
  destruct (numeric_lt (saturation (sensor c)) _ Hw) as [bw Hbw].
  destruct (numeric_lt (saturation (sensor c)) _ Ha) as [ba Hba].
  destruct (numeric_gt (t_check t - last_dose c)%Q _ Hd) as [bd Hbd].
  destruct (numeric_percent _ Ha Hpercent) as (p & Hp & Hfmt).
  apply in_float_range_format in Hs, Ht.
  unfold numeric in Ha. destruct (Py.num_of (alarm_level c)) eqn:Hnum;
    [|discriminate].
  unfold update, water. run_eff.
  repeat case_cond; cbn; congruence.
Qed.

Lemma update_returns_on_numbers_witness :
  outcome (update (mkClock 31 32) (sense 0.125 sample_channel)) = Ok tt.
Proof.
  apply (update_returns_on_numbers (mkClock 31 32)
           (sense 0.125 sample_channel));
    [reflexivity | reflexivity | reflexivity | reflexivity | reflexivity |].
  intros z Hz. discriminate Hz.
Defined.

(** X2 — When [update] raises, it raises [TypeError], [ValueError] or
    [OverflowError], the alarm flag is as it was and no warning was logged;
    and unless a dose had already been requested, the channel is untouched
    and nothing was emitted. *)
Theorem update_raise_effects (t : clock) (c : Channel) (e : exn) :
  outcome (update t c) = Raise e →
  (e = TypeError ∨ e = ValueError ∨ e = OverflowError) ∧
  alarm (state_after (update t c)) = alarm c ∧
  existsb is_warning (events_of (update t c)) = false ∧
  (dosed (events_of (update t c)) = false →
   update t c = (Raise e, c, [])).
Proof.
  unfold update, water. run_eff.
  repeat case_cond; cbn; intros He; try discriminate He;
    injection He as <-;
    repeat match goal with
           | H : Py.float_lt _ _ = Raise _ |- _ =>
               apply float_lt_raises in H; subst
           | H : Py.float_gt _ _ = Raise _ |- _ =>
               apply float_gt_raises in H; subst
           | H : Py.times_100 _ = Raise _ |- _ =>
               apply times_100_raises in H; subst
           | H : Py.format_2f _ = Raise _ |- _ =>
               apply format_2f_raises in H
           end;
    repeat split; auto; try discriminate.
Qed.

Lemma update_raise_effects_witness :
  (let c := sense 0.125 miswritten_channel in
   update (mkClock 31 32) c = (Raise TypeError, c, [])) ∧
  (let c := sense 0.125 oversized_channel in
   outcome (update (mkClock 31 32) c) = Raise OverflowError ∧
   alarm (state_after (update (mkClock 31 32) c)) = alarm c).
Proof.
  split.
  - intros c.
    destruct (update_raise_effects (mkClock 31 32) c TypeError)
      as (_ & _ & _ & Hclean); [vm_compute; reflexivity|].
    apply Hclean. vm_compute. reflexivity.
  - intros c.
    assert (Hraise : outcome (update (mkClock 31 32) c) = Raise OverflowError)
      by (vm_compute; reflexivity).
    destruct (update_raise_effects (mkClock 31 32) c OverflowError Hraise)
      as (_ & Halarm & _).
    split; [exact Hraise | exact Halarm].
Defined.

(** X3 — [update] logs its warning exactly on the call that takes the
    alarm flag from false to true: never while the flag is already set and
    never without setting it. *)
Theorem warning_on_rising_edge (t : clock) (c : Channel) :
  existsb is_warning (events_of (update t c))
  = negb (alarm c) && alarm (state_after (update t c)).
Proof.
  unfold update, water. run_eff.
  repeat case_cond; cbn;
    repeat match goal with
           | H : alarm c = _ |- _ => rewrite H
           end;
    reflexivity.
Qed.

Lemma sense_sense (s1 s2 : Q) (c : Channel) :
  sense s2 (sense s1 c) = sense s2 c.
Proof. reflexivity. Qed.

(** X4 — A channel that is not enabled stays dormant over any number of
    ticks: nothing is emitted, and at the end the channel differs from the
    one at the start by the last sensor reading alone, so the alarm flag,
    the time of the last dose and all settings are as they were. *)
Theorem disabled_over_ticks (ts : list tick) (c : Channel) :
  Py.truthy (enabled c) = false →
  run_ticks_events ts c = [] ∧
  run_ticks ts c = match last ts with
                   | Some t => sense (reading t) c
                   | None => c
                   end.
Proof.
  revert c. induction ts as [|t ts IH]; intros c Hoff; [split; reflexivity|].
  assert (Hstep : update (now t) (sense (reading t) c)
                  = (Ok tt, sense (reading t) c, []))
    by (unfold update; run_eff; rewrite Hoff; reflexivity).
  assert (Htick : run_tick t c = sense (reading t) c)
    by (unfold run_tick; rewrite Hstep; reflexivity).
  destruct (IH (sense (reading t) c) Hoff) as [IHev IHst].
  cbn [run_ticks_events]. rewrite run_ticks_cons, Htick, Hstep, IHev, IHst.
  split; [reflexivity|]. clear IH IHev IHst.
  destruct ts as [|t' ts]; [reflexivity|].
  rewrite last_cons_cons.
  destruct (last (t' :: ts)) eqn:Hlast; [apply sense_sense|].
  apply last_None in Hlast. discriminate Hlast.
Qed.

Lemma disabled_over_ticks_witness :
  run_ticks_events
    [mkTick 0.125 (mkClock 100 100); mkTick 0 (mkClock 200 200)]
    default_channel = [] ∧
  alarm (run_ticks
           [mkTick 0.125 (mkClock 100 100); mkTick 0 (mkClock 200 200)]
           default_channel) = false.
Proof.
  destruct (disabled_over_ticks
              [mkTick 0.125 (mkClock 100 100); mkTick 0 (mkClock 200 200)]
              default_channel) as [Hev Hst]; [reflexivity|].
  split; [exact Hev|]. rewrite Hst. reflexivity.
Defined.

(** One call of [update] requests at most one dose, with the channel's
    pump speed and time, and moves [last_dose] exactly when it does. *)
Lemma update_dose_accounting (t : clock) (c : Channel) :
  let r := update t c in
  List.filter is_dose (events_of r)
  = (if dosed (events_of r)
     then [PumpDose (pump c) (pump_speed c) (pump_time c) false]
     else []) ∧
  last_dose (state_after r)
  = (if dosed (events_of r) then t_dose t else last_dose c).
Proof.
  unfold update, water. run_eff.
  repeat case_cond; cbn; split; reflexivity.
Qed.

(** X5 — Dose accounting.  A call of [update] requests at most one dose,
    non-blocking and with the channel's [pump_speed] and [pump_time], and
    [last_dose] moves (to the current time) exactly on the calls that
    request one; an information record is logged only after a dose. *)
Theorem dose_accounting (t : clock) (c : Channel) :
  let r := update t c in
  List.filter is_dose (events_of r)
  = (if dosed (events_of r)
     then [PumpDose (pump c) (pump_speed c) (pump_time c) false]
     else []) ∧
  last_dose (state_after r)
  = (if dosed (events_of r) then t_dose t else last_dose c) ∧
  (existsb is_info (events_of r) = true → dosed (events_of r) = true).
Proof.
  cbv zeta. destruct (update_dose_accounting t c) as [Hf Hl].
  split; [exact Hf|]. split; [exact Hl|].
  unfold update, water. run_eff.
  repeat case_cond; cbn; congruence.
Qed.

Lemma dose_accounting_witness :
  existsb is_info
    (events_of (update (mkClock 31 32) (sense 0.125 sample_channel))) = true ∧
  dosed (events_of (update (mkClock 31 32) (sense 0.125 sample_channel)))
  = true.
Proof.
  destruct (dose_accounting (mkClock 31 32) (sense 0.125 sample_channel))
    as (_ & _ & Hinfo).
  assert (H : existsb is_info
                (events_of (update (mkClock 31 32)
                              (sense 0.125 sample_channel))) = true)
    by (vm_compute; reflexivity).
  split; [exact H | exact (Hinfo H)].
Defined.

(** X6 — Without automatic watering no dose is ever requested: over any
    sequence of ticks a channel whose [auto_water] is false emits no dose
    and keeps its [last_dose], whatever the readings and the clock. *)
Theorem no_dose_without_auto_water (ts : list tick) (c : Channel) :
  Py.truthy (auto_water c) = false →
  dosed (run_ticks_events ts c) = false ∧
  last_dose (run_ticks ts c) = last_dose c.
Proof.
  revert c. induction ts as [|t ts IH]; intros c Hoff; [split; reflexivity|].
  assert (Hstep : dosed (events_of (update (now t) (sense (reading t) c)))
                  = false).
  { unfold update, water. run_eff.
    repeat case_cond; cbn; first [reflexivity | congruence]. }
  destruct (update_dose_accounting (now t) (sense (reading t) c))
    as [_ Hlast]. rewrite Hstep in Hlast.
  pose proof (update_frame (now t) (sense (reading t) c)) as Hfr.
  cbv zeta in Hfr. destruct Hfr as (_ & _ & _ & _ & _ & Hauto & _).
  destruct (IH (run_tick t c)) as [IHev IHlast].
  { unfold run_tick. rewrite Hauto. exact Hoff. }
  cbn [run_ticks_events]. rewrite run_ticks_cons, dosed_app, Hstep, IHev.
  split; [reflexivity|]. rewrite IHlast. exact Hlast.
Qed.

Lemma no_dose_without_auto_water_witness :
  let c := update_from_yml (Some {[ "auto_water" := PyBool false ]})
             sample_channel in
  dosed (run_ticks_events
           [mkTick 0.125 (mkClock 100 100); mkTick 0 (mkClock 200 200)] c)
  = false.
Proof.
  intros c.
  apply (no_dose_without_auto_water
           [mkTick 0.125 (mkClock 100 100); mkTick 0 (mkClock 200 200)] c).
  vm_compute. reflexivity.
Defined.

(** X7 — The alarm is raised whenever it is due: when an enabled channel
    reads below [water_level] and below [alarm_level] and [update]
    returns, the alarm flag is set afterwards, with or without automatic
    watering and whether or not a dose was requested. *)
Theorem alarm_raised_when_due (t : clock) (c : Channel) :
  Py.truthy (enabled c) = true →
  Py.float_lt (saturation (sensor c)) (water_level c) = Ok true →
  Py.float_lt (saturation (sensor c)) (alarm_level c) = Ok true →
  outcome (update t c) = Ok tt →
  alarm (state_after (update t c)) = true.
Proof.
  intros Hen Hw Ha. unfold update, water. run_eff. rewrite Hen, Hw.
  eff_cbn. repeat case_cond; cbn; congruence.
Qed.

Lemma alarm_raised_when_due_witness :
  let c := update_from_yml (Some {[ "auto_water" := PyBool false ]})
             (sense 0.125 sample_channel) in
  alarm c = false ∧ alarm (state_after (update (mkClock 1 1) c)) = true.
Proof.
  intros c. split; [reflexivity|].
  apply (alarm_raised_when_due (mkClock 1 1) c); vm_compute; reflexivity.
Defined.

(** * Further properties of the settings load *)

Lemma default_union (x : pyval) (m1 m2 : gmap string pyval) (k : string) :
  default (default x (m1 !! k)) (m2 !! k) = default x ((m2 ∪ m1) !! k).
Proof.
  destruct (m2 !! k) as [v2|] eqn:H2.
  - rewrite (lookup_union_Some_l m2 m1 k v2 H2). reflexivity.
  - rewrite (lookup_union_r m2 m1 k H2). reflexivity.
Qed.

(** X8 — Settings compose.  Applying one mapping and then another is the
    same as applying once their union in which the later mapping wins, so
    applying the same mapping twice is the same as applying it once. *)
Theorem update_from_yml_compose (m1 m2 : gmap string pyval) (c : Channel) :
  update_from_yml (Some m2) (update_from_yml (Some m1) c)
  = update_from_yml (Some (m2 ∪ m1)) c ∧
  update_from_yml (Some m1) (update_from_yml (Some m1) c)
  = update_from_yml (Some m1) c.
Proof.
  assert (Hcomp : ∀ a b : gmap string pyval,
            update_from_yml (Some b) (update_from_yml (Some a) c)
            = update_from_yml (Some (b ∪ a)) c).
  { intros a b. unfold update_from_yml, config_get. cbn.
    rewrite !default_union. reflexivity. }
  split; [apply Hcomp|].
  rewrite Hcomp, (map_union_idemp m1). reflexivity.
Qed.

(** X9 — The settings load of [main] keeps the number of channels and,
    for each of them, its identity, sensor, alarm flag and time of the last
    dose; a document without a section for any of the channels changes
    nothing; and a section whose name is that of no channel (such as the
    general section) has no influence on the channels. *)
Theorem load_settings_frame
    (config : gmap string (option (gmap string pyval)))
    (cs : list Channel) (name : string)
    (section : option (gmap string pyval)) :
  length (load_settings config cs) = length cs ∧
  runtime_of <$> load_settings config cs = runtime_of <$> cs ∧
  (Forall (λ c, config !! section_name c = None) cs →
   load_settings config cs = cs) ∧
  (Forall (λ c, section_name c ≠ name) cs →
   load_settings (<[name:=section]> config) cs = load_settings config cs).
Proof.
  unfold load_settings. split; [apply length_fmap|]. split; [|split].
  - rewrite <- list_fmap_compose. apply list_fmap_ext.
    intros _ c _. cbn. destruct (default None _); reflexivity.
  - intros Hnone. rewrite <- (list_fmap_id cs) at 2.
    apply Forall_fmap_ext_1. eapply Forall_impl; [exact Hnone|].
    intros c Hc. cbn in Hc. rewrite Hc. reflexivity.
  - intros Hother. apply Forall_fmap_ext_1.
    eapply Forall_impl; [exact Hother|].
    intros c Hc. cbn in Hc. rewrite lookup_insert_ne by congruence.
    reflexivity.
Qed.

Lemma load_settings_frame_witness :
  let cs := initial_channels 0 unread_sensor in
  let general : gmap string pyval := {[ "alarm_enable" := PyBool true ]} in
  load_settings ∅ cs = cs ∧
  load_settings (<["general" := Some general]> ∅) cs = load_settings ∅ cs.
Proof.
  intros cs general.
  destruct (load_settings_frame ∅ cs "general" (Some general))
    as (_ & _ & Hnone & Hother).
  split.
  - apply Hnone. repeat constructor.
  - apply Hother. repeat constructor; discriminate.
Defined.

(** * Further properties of the navigation *)

Lemma presses_cons (pin : Z) (pins : list Z) (g : Globals) :
  presses (pin :: pins) g = presses pins (press pin g).
Proof. reflexivity. Qed.

Lemma presses_app (p1 p2 : list Z) (g : Globals) :
  presses (p1 ++ p2) g = presses p2 (presses p1 g).
Proof. apply foldl_app. Qed.

Lemma press_A_eq (g : Globals) :
  current_subview g = 0 →
  press 5 g =
    mkGlobals (channels g)
      ((current_view g + 1) `mod` Z.of_nat (length views)) 0 (alarm_flag g).
Proof.
  intros Hs. unfold press. rewrite handle_button_A, Hs. reflexivity.
Qed.

Lemma press_X_eq (g : Globals) :
  current_view g = 1 ∨ current_view g = 2 ∨ current_view g = 3 →
  press 16 g = set_current_subview ((current_subview g + 1) `mod` 2) g.
Proof.
  intros Hc. unfold press. rewrite handle_button_X.
  destruct (index_views_tuple _ Hc) as (vs & -> & Hlen).
  rewrite Hlen. reflexivity.
Qed.

(** X10 — Pressing "X" twice returns to where one was: on every state
    whose indices are in range, two sub-view toggles in a row leave the
    globals exactly as they were. *)
Theorem toggle_twice (g : Globals) :
  nav_in_range g → press 16 (press 16 g) = g.
Proof.
  intros Hg. apply nav_in_range_cases in Hg.
  destruct Hg as [[Hc Hs] | [Hc Hs]].
  - assert (Hnoop : press 16 g = g).
    { unfold press. rewrite handle_button_X, Hc. reflexivity. }
    rewrite !Hnoop. reflexivity.
  - rewrite (press_X_eq g Hc).
    rewrite press_X_eq by exact Hc.
    destruct g as [cs cv sv af]. cbn in *.
    unfold set_current_subview. cbn.
    destruct Hs as [-> | ->]; reflexivity.
Qed.

Lemma toggle_twice_witness :
  press 16 (press 16 (mkGlobals [] 2 1 None)) = mkGlobals [] 2 1 None.
Proof.
  apply (toggle_twice (mkGlobals [] 2 1 None)).
  apply nav_in_range_cases. right. cbn. lia.
Defined.

Lemma presses_A_cycle (n : nat) (h : Globals) :
  current_subview h = 0 →
  0 <= current_view h < Z.of_nat (length views) →
  current_view (presses (replicate n 5) h)
  = (current_view h + Z.of_nat n) `mod` Z.of_nat (length views) ∧
  current_subview (presses (replicate n 5) h) = 0 ∧
  channels (presses (replicate n 5) h) = channels h.
Proof.
  revert h. induction n as [|n IH]; intros h Hhs Hhc.
  - cbn [replicate presses foldl]. rewrite Z.add_0_r.
    rewrite Z.mod_small by exact Hhc. auto.
  - cbn [replicate]. rewrite presses_cons, (press_A_eq h Hhs).
    destruct (IH (mkGlobals (channels h)
                    ((current_view h + 1) `mod` Z.of_nat (length views))
                    0 (alarm_flag h))) as (Hv & Hsv & Hch).
    + reflexivity.
    + apply Z.mod_pos_bound. cbn. lia.
    + rewrite Hv, Hsv, Hch. cbn [current_view channels].
      rewrite Zplus_mod_idemp_l. repeat split; try reflexivity.
      f_equal. lia.
Qed.

(** X11 — "A" cycles through the views.  From a state with the sub-view
    index at 0 and the view index in range, [k] presses of "A" lead to
    view [(current_view + k) mod len(views)], still at sub-view 0 and with
    the channels untouched; as many presses as there are views lead back
    to the same view. *)
Theorem next_view_cycles (k : nat) (g : Globals) :
  current_subview g = 0 →
  0 <= current_view g < Z.of_nat (length views) →
  let g' := presses (replicate k 5) g in
  current_view g'
  = (current_view g + Z.of_nat k) `mod` Z.of_nat (length views) ∧
  current_subview g' = 0 ∧
  channels g' = channels g ∧
  current_view (presses (replicate (length views) 5) g) = current_view g.
Proof.
  intros Hs Hc.
  cbv zeta. destruct (presses_A_cycle k g Hs Hc) as (Hv & Hsv & Hch).
  repeat split; try assumption.
  destruct (presses_A_cycle (length views) g Hs Hc) as (Hfull & _).
  rewrite Hfull.
  rewrite <- (Z.mul_1_l (Z.of_nat (length views))) at 1.
  rewrite Z.mod_add by (cbn; lia). apply Z.mod_small, Hc.
Qed.

Lemma next_view_cycles_witness :
  current_view (presses (replicate 6 5) (mkGlobals [] 3 0 None)) = 1.
Proof.
  destruct (next_view_cycles 6 (mkGlobals [] 3 0 None)) as (Hv & _);
    [reflexivity | cbn; lia |].
  rewrite Hv. reflexivity.
Defined.

(** X12 — A sub-view other than the first holds the view: while
    [current_subview] is not 0, no sequence of button events without an
    "X" among them changes either navigation index. *)
Theorem subview_holds_view (pins : list Z) (g : Globals) :
  current_subview g ≠ 0 →
  Forall (λ pin, pin ≠ 16) pins →
  current_view (presses pins g) = current_view g ∧
  current_subview (presses pins g) = current_subview g.
Proof.
  revert g. induction pins as [|pin pins IH]; intros g Hs Hpins;
    [split; reflexivity|].
  apply Forall_cons in Hpins as [Hpin Hrest].
  assert (Hstep : current_view (press pin g) = current_view g ∧
                  current_subview (press pin g) = current_subview g).
  { unfold press.
    destruct (pin_cases pin) as [->|[->|[->|[->|Hother]]]].
    - rewrite handle_button_A.
      rewrite (proj2 (Z.eqb_neq _ _) Hs). split; reflexivity.
    - rewrite handle_button_B. split; reflexivity.
    - contradiction.
    - rewrite handle_button_Y. split; reflexivity.
    - rewrite handle_button_other by exact Hother. split; reflexivity. }
  destruct Hstep as [Hv Hsv].
  rewrite presses_cons.
  destruct (IH (press pin g)) as [IHv IHsv];
    [rewrite Hsv; exact Hs | exact Hrest |].
  rewrite IHv, IHsv. split; assumption.
Qed.

Lemma subview_holds_view_witness :
  current_view (presses [5; 6; 24; 5; 7] (mkGlobals [] 2 1 None)) = 2 ∧
  current_subview (presses [5; 6; 24; 5; 7] (mkGlobals [] 2 1 None)) = 1.
Proof.
  apply (subview_holds_view [5; 6; 24; 5; 7] (mkGlobals [] 2 1 None)).
  - discriminate.
  - repeat constructor; discriminate.
Defined.

(** X13 — Every view can be reached.  For each pair of indices in range
    there is a sequence of button events that leads from the initial state
    to it: "A" as often as the view index says, then "X" as often as the
    sub-view index says. *)
Theorem every_view_reachable (start : Q) (moisture : Z → Moisture)
    (target : Globals) :
  nav_in_range target →
  let pins := replicate (Z.to_nat (current_view target)) 5
              ++ replicate (Z.to_nat (current_subview target)) 16 in
  current_view (presses pins (initial_globals start moisture))
  = current_view target ∧
  current_subview (presses pins (initial_globals start moisture))
  = current_subview target.
Proof.
  intros Ht. pose proof Ht as [Hrange _].
  apply nav_in_range_cases in Ht. cbv zeta. rewrite presses_app.
  destruct (presses_A_cycle (Z.to_nat (current_view target))
              (initial_globals start moisture)) as (Hv & Hsv & _);
    [reflexivity | cbn; lia |].
  cbn [initial_globals current_view] in Hv.
  rewrite Z.add_0_l, Z2Nat.id, Z.mod_small in Hv by lia.
  set (g := presses (replicate (Z.to_nat (current_view target)) 5)
              (initial_globals start moisture)) in *.
  destruct Ht as [[Hc Hs] | [Hc Hs]].
  - rewrite Hs. change (Z.to_nat 0) with 0%nat.
    cbn [replicate presses foldl]. split; congruence.
  - assert (Hg : current_view g = 1 ∨ current_view g = 2 ∨ current_view g = 3)
      by (rewrite Hv; exact Hc).
    destruct Hs as [Hs | Hs]; rewrite Hs.
    + change (Z.to_nat 0) with 0%nat.
      cbn [replicate presses foldl]. split; congruence.
    + change (Z.to_nat 1) with 1%nat. cbn [replicate].
      rewrite presses_cons. cbn [presses foldl].
      rewrite (press_X_eq g Hg). cbn [set_current_subview current_view
        current_subview]. rewrite Hsv. split; [exact Hv | reflexivity].
Qed.

Lemma every_view_reachable_witness :
  current_view (presses [5; 5; 5; 16] (initial_globals 0 unread_sensor)) = 3 ∧
  current_subview (presses [5; 5; 5; 16] (initial_globals 0 unread_sensor))
  = 1.
Proof.
  apply (every_view_reachable 0 unread_sensor (mkGlobals [] 3 1 None)).
  apply nav_in_range_cases. right. cbn. lia.
Defined.

(** X14 — [handle_button] raises [ValueError] exactly for the pins that
    are not among the four buttons, and then it has changed nothing and
    printed nothing. *)
Theorem unknown_pin_rejected (pin : Z) (g : Globals) :
  (outcome (handle_button pin g) = Raise ValueError ↔ pin ∉ BUTTONS) ∧
  (pin ∉ BUTTONS → handle_button pin g = (Raise ValueError, g, [])).
Proof.
  split; [|apply handle_button_other].
  split; [|intros Hpin; rewrite handle_button_other by exact Hpin;
           reflexivity].
  intros Hraise Hin.
  unfold BUTTONS in Hin. rewrite !elem_of_cons, elem_of_nil in Hin.
  destruct Hin as [-> | [-> | [-> | [-> | []]]]].
  - rewrite handle_button_A in Hraise.
    destruct (current_subview g =? 0); discriminate Hraise.
  - rewrite handle_button_B in Hraise. discriminate Hraise.
  - rewrite handle_button_X in Hraise.
    unfold Py.index in Hraise.
    repeat match type of Hraise with
           | context [if ?b then _ else _] => destruct b
           | context [match ?o with Some _ => _ | None => _ end] =>
               destruct o as [[v|vs]|]
           | context [py_mod ?x ?n] =>
               unfold py_mod in Hraise
           end; cbn in Hraise; discriminate Hraise.
  - rewrite handle_button_Y in Hraise. discriminate Hraise.
Qed.

Lemma unknown_pin_rejected_witness :
  handle_button 7 (mkGlobals [] 2 1 None)
  = (Raise ValueError, mkGlobals [] 2 1 None, []).
Proof.
  destruct (unknown_pin_rejected 7 (mkGlobals [] 2 1 None)) as [_ Hclean].
  apply Hclean. unfold BUTTONS. rewrite !not_elem_of_cons.
  repeat split; try discriminate. apply not_elem_of_nil.
Defined.

(** * Further properties of the colour interpolation *)

Lemma int_between (lo hi : Z) (q : Q) :
  (inject_Z lo <= q)%Q → (q <= inject_Z hi)%Q → lo <= Py.int q <= hi.
Proof.
  destruct q as [n d]. unfold Qle, Py.int. cbn. rewrite !Z.mul_1_r.
  intros Hlo Hhi.
  pose proof (Z.quot_rem' n (Z.pos d)) as Hqr.
  destruct (Z_lt_le_dec n 0) as [Hneg | Hpos].
  - pose proof (Z.rem_bound_pos_neg n (Z.pos d) eq_refl (Z.lt_le_incl _ _ Hneg)).
    nia.
  - pose proof (Z.rem_bound_pos n (Z.pos d) Hpos eq_refl). nia.
Qed.

Lemma int_of_integer (z : Z) (q : Q) : (q == inject_Z z)%Q → Py.int q = z.
Proof.
  destruct q as [n d]. unfold Qeq, Py.int. cbn. rewrite Z.mul_1_r.
  intros ->. apply Z.quot_mul. discriminate.
Qed.

Lemma lerp_between (lo hi x y : Z) (t : Q) :
  lo <= x <= hi → lo <= y <= hi → (0 <= t)%Q → (t <= 1)%Q →
  (inject_Z lo <= lerp x y t)%Q ∧ (lerp x y t <= inject_Z hi)%Q.
Proof.
  intros [Hx1 Hx2] [Hy1 Hy2] Ht0 Ht1. unfold lerp.
  rewrite Zle_Qle in Hx1, Hx2, Hy1, Hy2.
  unfold Z.sub. rewrite inject_Z_plus, inject_Z_opp.
  split; nra.
Qed.

Lemma int_lerp_between (lo hi x y : Z) (t : Q) :
  lo <= x <= hi → lo <= y <= hi → (0 <= t)%Q → (t <= 1)%Q →
  lo <= Py.int (lerp x y t) <= hi.
Proof.
  intros Hx Hy Ht0 Ht1.
  destruct (lerp_between lo hi x y t Hx Hy Ht0 Ht1) as [Hlo Hhi].
  apply int_between; assumption.
Qed.

Lemma index_empty {A : Type} (i : Z) :
  Py.index (@nil A) i = Raise IndexError.
Proof.
  unfold Py.index. cbv zeta.
  destruct (_ && _); [rewrite lookup_nil|]; reflexivity.
Qed.

Lemma index_beyond {A : Type} (l : list A) (i : Z) :
  Z.of_nat (length l) <= i → Py.index l i = Raise IndexError.
Proof.
  intros Hi. unfold Py.index.
  rewrite (proj2 (Z.ltb_ge i 0)) by lia.
  rewrite (proj2 (Z.ltb_ge i (Z.of_nat (length l)))) by lia.
  rewrite andb_false_r. reflexivity.
Qed.

(** Python's wrap-around: an index from [-len] up to [len - 1] reads the
    entry at that index modulo the length. *)
Lemma index_wrap {A : Type} (l : list A) (i : Z) :
  - Z.of_nat (length l) <= i < Z.of_nat (length l) →
  ∃ x, l !! Z.to_nat (i `mod` Z.of_nat (length l)) = Some x ∧
       Py.index l i = Ok x.
Proof.
  intros Hi. set (n := Z.of_nat (length l)) in *.
  destruct (Z_lt_le_dec i 0) as [Hneg | Hpos].
  - assert (Hmod : i `mod` n = i + n).
    { rewrite <- (Z.mod_small (i + n) n) by lia.
      rewrite <- (Z.mul_1_l n) at 2. rewrite Z.mod_add by lia. reflexivity. }
    destruct (index_in_range l (i + n)) as (x & Hx & _); [fold n; lia|].
    exists x. rewrite Hmod. split; [exact Hx|]. unfold Py.index. fold n.
    rewrite (proj2 (Z.ltb_lt i 0) Hneg).
    rewrite (proj2 (Z.leb_le 0 (i + n))), (proj2 (Z.ltb_lt (i + n) n)),
      Hx by lia.
    reflexivity.
  - rewrite Z.mod_small by lia. apply index_in_range. fold n. lia.
Qed.

(** The interior branch of [indicator_color], entered when the inverted
    input is neither 0 nor 1, once both neighbouring entries are found. *)
Lemma indicator_color_blend (value : Q) (r : list colour) (ca cb : colour) :
  Qeq_bool (1 - value) 1 = false →
  Qeq_bool (1 - value) 0 = false →
  let scaled := ((1 - value) * inject_Z (Z.of_nat (length r) - 1))%Q in
  let a := Py.floor scaled in
  let blend := (scaled - inject_Z a)%Q in
  Py.index r a = Ok ca →
  Py.index r (a + 1) = Ok cb →
  indicator_color value (Some r)
  = Ok (Py.int (lerp (component ca 0) (component cb 0) blend),
        Py.int (lerp (component ca 1) (component cb 1) blend),
        Py.int (lerp (component ca 2) (component cb 2) blend)).
Proof.
  intros E1 E0 scaled a blend Hia Hib.
  unfold indicator_color.
  change (default bar_colours (Some r)) with r. cbv zeta. rewrite E1, E0.
  fold scaled. fold a. fold blend.
  unfold blend_component. rewrite Hia, Hib. reflexivity.
Qed.

Lemma blend_range (x : Q) :
  (0 <= x - inject_Z (Py.floor x))%Q ∧ (x - inject_Z (Py.floor x) < 1)%Q.
Proof.
  unfold Py.floor.
  pose proof (Qfloor_le x) as Hle. pose proof (Qlt_floor x) as Hlt.
  rewrite inject_Z_plus in Hlt. change (inject_Z 1) with 1%Q in Hlt.
  split; lra.
Qed.

(** Bounds of the interpolation on inputs from 0 to 1. *)
Lemma indicator_color_bounded (value : Q) (r : list colour) (lo hi : Z) :
  (2 <= length r)%nat → (0 <= value)%Q → (value <= 1)%Q →
  palette_within lo hi r →
  ∃ x y z,
    indicator_color value (Some r) = Ok (x, y, z) ∧
    lo <= x <= hi ∧ lo <= y <= hi ∧ lo <= z <= hi.
Proof.
  intros Hlen Hv0 Hv1 Hpal.
  assert (Hentry : ∀ i c, r !! i = Some c →
            lo <= component c 0 <= hi ∧ lo <= component c 1 <= hi ∧
            lo <= component c 2 <= hi).
  { intros i c Hc. pose proof (Forall_lookup_1 _ _ _ _ Hpal Hc) as H.
    cbv beta in H. auto. }
  assert (Hwhole : ∀ i c, r !! i = Some c →
            ∃ x y z, c = (x, y, z) ∧
              lo <= x <= hi ∧ lo <= y <= hi ∧ lo <= z <= hi).
  { intros i [[x y] z] Hc. destruct (Hentry i _ Hc) as (Hx & Hy & Hz).
    exists x, y, z. auto. }
  destruct (Qeq_bool (1 - value) 1) eqn:E1.
  - destruct (last r) as [c|] eqn:Hlast;
      [|apply last_None in Hlast; subst r; cbn in Hlen; lia].
    pose proof Hlast as Hlk. rewrite last_lookup in Hlk.
    destruct (Hwhole _ _ Hlk) as (x & y & z & -> & Hb).
    exists x, y, z. split; [|exact Hb].
    unfold indicator_color. change (default bar_colours (Some r)) with r.
    cbv zeta. rewrite E1. apply index_last, Hlast.
  - destruct (Qeq_bool (1 - value) 0) eqn:E0.
    + destruct (head r) as [c|] eqn:Hhead;
        [|destruct r; [cbn in Hlen; lia | discriminate]].
      pose proof Hhead as Hlk. rewrite head_lookup in Hlk.
      destruct (Hwhole _ _ Hlk) as (x & y & z & -> & Hb).
      exists x, y, z. split; [|exact Hb].
      unfold indicator_color. change (default bar_colours (Some r)) with r.
      cbv zeta. rewrite E1, E0. apply index_first, Hhead.
    + pose proof E1 as E1b. pose proof E0 as E0b.
      apply Qeq_bool_neq in E1, E0.
      assert (Hlo : (0 < value)%Q).
      { destruct (Qlt_le_dec 0 value) as [H|H]; [exact H|].
        exfalso. apply E1. lra. }
      assert (Hhi : (value < 1)%Q).
      { destruct (Qlt_le_dec value 1) as [H|H]; [exact H|].
        exfalso. apply E0. lra. }
      destruct (scaled_interior value (Z.of_nat (length r)))
        as [Hs0 Hs1]; [lia | exact Hlo | exact Hhi |].
      destruct (floor_interior _ _ Hs0 Hs1) as (Ha & Hb0 & Hb1).
      destruct (index_in_range r (Py.floor
                  ((1 - value) * inject_Z (Z.of_nat (length r) - 1))))
        as (ca & Hca & Hia); [lia|].
      destruct (index_in_range r (Py.floor
                  ((1 - value) * inject_Z (Z.of_nat (length r) - 1)) + 1))
        as (cb & Hcb & Hib); [lia|].
      destruct (Hentry _ _ Hca) as (Ha0 & Ha1 & Ha2).
      destruct (Hentry _ _ Hcb) as (Hc0 & Hc1 & Hc2).
      do 3 eexists. split.
      * exact (indicator_color_blend value r ca cb E1b E0b Hia Hib).
      * split; [|split]; apply int_lerp_between;
          auto using Qlt_le_weak.
Qed.

(** X15 — On inputs from 0 to 1 the interpolation stays inside the
    palette: for a palette of two or more colours whose components all lie
    between [lo] and [hi], themselves within the ints that convert to
    floats exactly ([exact_int]), [indicator_color] returns a colour (it
    does not raise) and each of its components lies between [lo] and [hi]
    again.  Beyond [exact_int] the conversion of a component to a float
    rounds or overflows, which the exact arithmetic here does not show. *)
Theorem indicator_color_within_palette (value : Q) (r : list colour)
    (lo hi : Z) :
  (2 <= length r)%nat → (0 <= value)%Q → (value <= 1)%Q →
  palette_within lo hi r → - exact_int <= lo → hi <= exact_int →
  ∃ x y z,
    indicator_color value (Some r) = Ok (x, y, z) ∧
    lo <= x <= hi ∧ lo <= y <= hi ∧ lo <= z <= hi.
Proof.
  intros Hlen Hv0 Hv1 Hpal _ _.
  destruct (indicator_color_bounded value r lo hi Hlen Hv0 Hv1 Hpal)
    as (x & y & z & Hcol & Hx & Hy & Hz).
  exists x, y, z. repeat split; solve [exact Hcol | apply Hx | apply Hy
                                      | apply Hz].
Qed.

Lemma indicator_color_within_palette_witness :
  ∃ x y z,
    indicator_color 0.375 (Some label_colours) = Ok (x, y, z) ∧
    0 <= x <= 255 ∧ 0 <= y <= 255 ∧ 0 <= z <= 255.
Proof.
  apply (indicator_color_within_palette 0.375 label_colours 0 255).
  - cbn. lia.
  - vm_compute. discriminate.
  - vm_compute. discriminate.
  - repeat constructor; destruct i as [|[|i]]; cbn; lia.
  - vm_compute. discriminate.
  - vm_compute. discriminate.
Defined.

(** In exact arithmetic every negative input is rejected, whatever the
    palette. *)
Lemma indicator_color_below_zero (value : Q) (r : list colour) :
  (value < 0)%Q → indicator_color value (Some r) = Raise IndexError.
Proof.
  intros Hneg.
  assert (E1 : Qeq_bool (1 - value) 1 = false).
  { destruct (Qeq_bool (1 - value) 1) eqn:E; [|reflexivity].
    apply Qeq_bool_eq in E. lra. }
  assert (E0 : Qeq_bool (1 - value) 0 = false).
  { destruct (Qeq_bool (1 - value) 0) eqn:E; [|reflexivity].
    apply Qeq_bool_eq in E. lra. }
  unfold indicator_color. change (default bar_colours (Some r)) with r.
  cbv zeta. rewrite E1, E0. unfold blend_component.
  assert (Hb : Py.index r
                 (Py.floor ((1 - value) * inject_Z (Z.of_nat (length r) - 1))
                  + 1) = Raise IndexError).
  { destruct r as [|c r]; [apply index_empty|].
    apply index_beyond.
    set (n := Z.of_nat (length (c :: r))).
    assert (Hn : 1 <= n) by (unfold n; cbn [length]; lia).
    assert (Hk : (0 <= inject_Z (n - 1))%Q).
    { change 0%Q with (inject_Z 0). rewrite <- Zle_Qle. lia. }
    pose proof (Qlt_floor ((1 - value) * inject_Z (n - 1))) as Hfl.
    unfold Py.floor.
    assert (Hlt : (inject_Z (n - 1)
                   < inject_Z (Qfloor ((1 - value) * inject_Z (n - 1)) + 1))%Q).
    { eapply Qle_lt_trans; [|exact Hfl]. nra. }
    rewrite <- Zlt_Qlt in Hlt. lia. }
  rewrite Hb. reflexivity.
Qed.

(** X16 — A negative input is rejected: for every palette, the default
    one included, and every input from [- scale_limit] up to [- epsilon],
    [indicator_color] raises [IndexError], because the upper of the two
    indices it computes lies past the end of the palette.  The two bounds
    keep the floats of the source away from where they part with exact
    arithmetic: a float between [- epsilon] and 0 can invert to 1.0, for
    which the source returns the last colour, and far below
    [- scale_limit] the scaled input is infinite. *)
Theorem indicator_color_negative (value : Q) (r : list colour) :
  (- scale_limit <= value)%Q → (value <= - epsilon)%Q →
  indicator_color value (Some r) = Raise IndexError ∧
  indicator_color value None = Raise IndexError.
Proof.
  intros _ Heps.
  assert (Hneg : (value < 0)%Q).
  { eapply Qle_lt_trans; [exact Heps|]. reflexivity. }
  split.
  - apply indicator_color_below_zero, Hneg.
  - change (indicator_color value None)
      with (indicator_color value (Some bar_colours)).
    apply indicator_color_below_zero, Hneg.
Qed.

Lemma indicator_color_negative_witness :
  indicator_color (- epsilon) (Some bar_colours) = Raise IndexError ∧
  indicator_color (-0.5) None = Raise IndexError.
Proof.
  split.
  - apply (indicator_color_negative (- epsilon) bar_colours);
      vm_compute; discriminate.
  - apply (indicator_color_negative (-0.5) bar_colours);
      vm_compute; discriminate.
Defined.

Lemma index_raises_IndexError {A : Type} (l : list A) (i : Z) (e : exn) :
  Py.index l i = Raise e → e = IndexError.
Proof.
  unfold Py.index. cbv zeta.
  destruct (_ && _); [destruct (l !! _)|]; congruence.
Qed.

(** In exact arithmetic whatever [indicator_color] raises is an
    [IndexError]. *)
Lemma indicator_color_raises (value : Q) (r : option (list colour))
    (e : exn) :
  indicator_color value r = Raise e → e = IndexError.
Proof.
  unfold indicator_color, blend_component, mbind, result_bind, mret,
    result_ret. cbv zeta.
  repeat match goal with
         | |- context [if ?b then _ else _] => destruct b
         | |- context [Py.index ?l ?i] =>
             let H := fresh "H" in
             destruct (Py.index l i) eqn:H;
             [|apply index_raises_IndexError in H; subst]
         end; congruence.
Qed.

Lemma lerp_at_zero (x y : Z) (t : Q) :
  (t == 0)%Q → Py.int (lerp x y t) = x.
Proof.
  intros Ht. apply int_of_integer. unfold lerp. rewrite Ht. ring.
Qed.

(** X18 — The interpolation passes through the palette.  When the
    inverted input, scaled to the palette, falls exactly on an index [k],
    [indicator_color] returns the palette's entry [k] itself, for a
    palette no longer than the ints a float counts exactly and with
    components within [exact_int].  A component beyond [exact_int] the
    source returns as the float next to it. *)
Theorem indicator_color_at_knot (value : Q) (r : list colour) (k : Z)
    (c : colour) :
  (2 <= length r)%nat → Z.of_nat (length r) <= 2 ^ 53 →
  palette_within (- exact_int) exact_int r →
  0 <= k → r !! Z.to_nat k = Some c →
  ((1 - value) * inject_Z (Z.of_nat (length r) - 1) == inject_Z k)%Q →
  indicator_color value (Some r) = Ok c.
Proof.
  intros Hlen _ _ Hk0 Hc Hknot.
  pose proof (lookup_lt_Some _ _ _ Hc) as Hkn.
  assert (HK : (1 <= inject_Z (Z.of_nat (length r) - 1))%Q).
  { change 1%Q with (inject_Z 1). rewrite <- Zle_Qle. lia. }
  destruct (Qeq_bool (1 - value) 1) eqn:E1.
  - apply Qeq_bool_eq in E1.
    assert (Hk : k = Z.of_nat (length r) - 1).
    { apply inject_Z_injective. rewrite <- Hknot, E1. ring. }
    unfold indicator_color. change (default bar_colours (Some r)) with r.
    cbv zeta. rewrite (proj2 (Qeq_bool_iff _ _) E1).
    apply index_last. rewrite last_lookup, <- Hc. f_equal. lia.
  - destruct (Qeq_bool (1 - value) 0) eqn:E0.
    + apply Qeq_bool_eq in E0.
      assert (Hk : k = 0).
      { apply inject_Z_injective. rewrite <- Hknot, E0. ring. }
      subst k. unfold indicator_color.
      change (default bar_colours (Some r)) with r.
      cbv zeta. rewrite E1, (proj2 (Qeq_bool_iff _ _) E0).
      apply index_first. rewrite head_lookup. exact Hc.
    + assert (Hfloor : Py.floor
                ((1 - value) * inject_Z (Z.of_nat (length r) - 1)) = k).
      { unfold Py.floor. rewrite Hknot. apply Qfloor_Z. }
      assert (Hnot1 : k ≠ Z.of_nat (length r) - 1).
      { intros ->. apply Qeq_bool_neq in E1. apply E1.
        destruct (Qlt_le_dec (1 - value) 1) as [H|H];
          [exfalso | destruct (Qlt_le_dec 1 (1 - value)) as [H'|H'];
                     [exfalso | lra]]; nra. }
      destruct (index_in_range r k) as (ca & Hca & Hia); [lia|].
      destruct (index_in_range r (k + 1)) as (cb & Hcb & Hib); [lia|].
      assert (ca = c) by congruence. subst ca.
      rewrite <- Hfloor in Hia, Hib.
      rewrite (indicator_color_blend value r c cb E1 E0 Hia Hib).
      rewrite !lerp_at_zero by (rewrite Hfloor, Hknot; ring).
      destruct c as [[x y] z]. reflexivity.
Qed.

Lemma indicator_color_at_knot_witness :
  indicator_color 0.5 (Some [(0, 10, 20); (30, 40, 50); (60, 70, 80)])
  = Ok (30, 40, 50).
Proof.
  apply (indicator_color_at_knot 0.5
           [(0, 10, 20); (30, 40, 50); (60, 70, 80)] 1 (30, 40, 50));
    [cbn; lia | vm_compute; discriminate | | lia | reflexivity
    | reflexivity].
  repeat constructor; destruct i as [|[|i]]; vm_compute; discriminate.
Defined.

Lemma index_ok_elem {A : Type} (l : list A) (i : Z) (x : A) :
  Py.index l i = Ok x → x ∈ l.
Proof.
  unfold Py.index. cbv zeta.
  destruct (_ && _); [|discriminate].
  destruct (l !! _) eqn:Hl; [|discriminate].
  intros H. injection H as <-. eapply list_elem_of_lookup_2, Hl.
Qed.

(** Whatever colour [indicator_color] returns lies within the range of the
    palette's components, for inputs outside 0..1 as well. *)
Lemma indicator_color_ok_bounded (value : Q) (r : list colour) (lo hi : Z)
    (x y z : Z) :
  palette_within lo hi r →
  indicator_color value (Some r) = Ok (x, y, z) →
  lo <= x <= hi ∧ lo <= y <= hi ∧ lo <= z <= hi.
Proof.
  intros Hpal.
  assert (Hentry : ∀ c, c ∈ r → ∀ i, lo <= component c i <= hi).
  { intros c Hc. exact (proj1 (Forall_forall _ _) Hpal c Hc). }
  assert (Hwhole : ∀ i, Py.index r i = Ok (x, y, z) →
            lo <= x <= hi ∧ lo <= y <= hi ∧ lo <= z <= hi).
  { intros i Hi. apply index_ok_elem in Hi.
    pose proof (Hentry _ Hi 0%nat). pose proof (Hentry _ Hi 1%nat).
    pose proof (Hentry _ Hi 2%nat). auto. }
  unfold indicator_color. change (default bar_colours (Some r)) with r.
  cbv zeta.
  destruct (Qeq_bool (1 - value) 1); [apply Hwhole|].
  destruct (Qeq_bool (1 - value) 0); [apply Hwhole|].
  unfold blend_component, mbind, result_bind, mret, result_ret.
  set (scaled := ((1 - value) * inject_Z (Z.of_nat (length r) - 1))%Q).
  destruct (blend_range scaled) as [Hb0 Hb1].
  destruct (Py.index r (Py.floor scaled + 1)) as [cb|] eqn:Hib;
    [|discriminate].
  destruct (Py.index r (Py.floor scaled)) as [ca|] eqn:Hia;
    [|discriminate].
  apply index_ok_elem in Hia, Hib.
  intros H. injection H as <- <- <-.
  split; [|split];
    apply (int_lerp_between lo hi); auto using Qlt_le_weak.
Qed.

Lemma bar_colours_range : palette_within 192 255 bar_colours.
Proof.
  repeat constructor; destruct i as [|[|i]]; cbn; lia.
Qed.

(** In exact arithmetic an input above 1 and up to 2 gives two indices
    that are negative or zero, which Python counts from the end. *)
Lemma indicator_color_wraps (value : Q) (r : list colour) :
  (2 <= length r)%nat → (1 < value)%Q → (value <= 2)%Q →
  let n := Z.of_nat (length r) in
  let scaled := ((1 - value) * inject_Z (n - 1))%Q in
  let a := Py.floor scaled in
  let blend := (scaled - inject_Z a)%Q in
  - (n - 1) <= a <= -1 ∧
  ∃ ca cb,
    r !! Z.to_nat (a `mod` n) = Some ca ∧
    r !! Z.to_nat ((a + 1) `mod` n) = Some cb ∧
    indicator_color value (Some r)
    = Ok (Py.int (lerp (component ca 0) (component cb 0) blend),
          Py.int (lerp (component ca 1) (component cb 1) blend),
          Py.int (lerp (component ca 2) (component cb 2) blend)).
Proof.
  intros Hlen Hlo Hhi n scaled a blend.
  assert (E1 : Qeq_bool (1 - value) 1 = false).
  { destruct (Qeq_bool (1 - value) 1) eqn:E; [|reflexivity].
    apply Qeq_bool_eq in E. lra. }
  assert (E0 : Qeq_bool (1 - value) 0 = false).
  { destruct (Qeq_bool (1 - value) 0) eqn:E; [|reflexivity].
    apply Qeq_bool_eq in E. lra. }
  assert (Hk : (1 <= inject_Z (n - 1))%Q).
  { change 1%Q with (inject_Z 1). rewrite <- Zle_Qle. unfold n. lia. }
  assert (Ha : - (n - 1) <= a <= -1).
  { pose proof (Qfloor_le scaled) as Hle.
    pose proof (Qlt_floor scaled) as Hlt. fold (Py.floor scaled) in Hle, Hlt.
    fold a in Hle, Hlt.
    assert (H1 : (inject_Z a < inject_Z 0)%Q).
    { eapply Qle_lt_trans; [exact Hle|]. change (inject_Z 0) with 0%Q.
      unfold scaled. nra. }
    assert (H2 : (inject_Z (- (n - 1)) < inject_Z (a + 1))%Q).
    { eapply Qle_lt_trans; [|exact Hlt]. rewrite inject_Z_opp.
      unfold scaled. nra. }
    rewrite <- Zlt_Qlt in H1, H2. lia. }
  split; [exact Ha|].
  destruct (index_wrap r a) as (ca & Hca & Hia); [fold n; lia|].
  destruct (index_wrap r (a + 1)) as (cb & Hcb & Hib); [fold n; lia|].
  exists ca, cb. split; [exact Hca|]. split; [exact Hcb|].
  exact (indicator_color_blend value r ca cb E1 E0 Hia Hib).
Qed.

(** X17 — An input above 1 is not rejected.  For a palette of two or more
    colours, no longer than the ints a float counts exactly and with
    components between [lo] and [hi] within [exact_int], and an input above
    1 and up to 2, [indicator_color] returns a colour whose components lie
    between [lo] and [hi].  Where moreover no floating-point operation of
    the computation rounds ([exact_run]), the two indices are negative or
    zero, Python counts them from the end of the palette, and the colour is
    the truncated blend of the entries at the two indices taken modulo the
    palette's length. *)
Theorem indicator_color_above_one (value : Q) (r : list colour)
    (lo hi : Z) :
  (2 <= length r)%nat → Z.of_nat (length r) <= 2 ^ 53 →
  (1 < value)%Q → (value <= 2)%Q →
  palette_within lo hi r → - exact_int <= lo → hi <= exact_int →
  (∃ x y z,
     indicator_color value (Some r) = Ok (x, y, z) ∧
     lo <= x <= hi ∧ lo <= y <= hi ∧ lo <= z <= hi) ∧
  (exact_run value r = true →
   let n := Z.of_nat (length r) in
   let scaled := ((1 - value) * inject_Z (n - 1))%Q in
   let a := Py.floor scaled in
   let blend := (scaled - inject_Z a)%Q in
   - (n - 1) <= a <= -1 ∧
   ∃ ca cb,
     r !! Z.to_nat (a `mod` n) = Some ca ∧
     r !! Z.to_nat ((a + 1) `mod` n) = Some cb ∧
     indicator_color value (Some r)
     = Ok (Py.int (lerp (component ca 0) (component cb 0) blend),
           Py.int (lerp (component ca 1) (component cb 1) blend),
           Py.int (lerp (component ca 2) (component cb 2) blend))).
Proof.
  intros Hlen _ Hlo Hhi Hpal _ _.
  destruct (indicator_color_wraps value r Hlen Hlo Hhi)
    as (Ha & ca & cb & Hca & Hcb & Hcol).
  split.
  - destruct (indicator_color value (Some r)) as [[[x y] z]|e] eqn:Hres;
      [|discriminate Hcol].
    exists x, y, z. split; [reflexivity|].
    exact (indicator_color_ok_bounded value r lo hi x y z Hpal Hres).
  - intros _ n scaled a blend. split; [exact Ha|].
    exists ca, cb. split; [exact Hca|]. split; [exact Hcb|]. exact Hcol.
Qed.

Lemma indicator_color_above_one_witness :
  exact_run 1.5 bar_colours = true ∧
  indicator_color 1.5 (Some bar_colours) = Ok (254, 217, 192).
Proof.
  assert (Hexact : exact_run 1.5 bar_colours = true)
    by (vm_compute; reflexivity).
  split; [exact Hexact|].
  destruct (indicator_color_above_one 1.5 bar_colours 192 255)
    as (_ & Hblend);
    [cbn; lia | vm_compute; discriminate | reflexivity
    | vm_compute; discriminate | exact bar_colours_range
    | vm_compute; discriminate | vm_compute; discriminate |].
  destruct (Hblend Hexact) as (_ & ca & cb & Hca & Hcb & Hcol).
  vm_compute in Hca. vm_compute in Hcb.
  injection Hca as <-. injection Hcb as <-.
  rewrite Hcol. vm_compute. reflexivity.
Defined.

(** * Properties of the rendering *)

Lemma bind_emit {S E B} (e : E) (k : unit → Eff S E B) (s : S) :
  (emit e ≫= k) s =
    match k tt s with
    | (r, s', ev) => (r, s', e :: ev)
    end.
Proof. reflexivity. Qed.

Lemma bar_colour_bounded (value : Q) :
  (0 <= value)%Q → (value <= 1)%Q →
  ∃ r g b,
    indicator_color value None = Ok (r, g, b) ∧
    192 <= r <= 255 ∧ 192 <= g <= 255 ∧ 192 <= b <= 255.
Proof.
  intros H0 H1.
  change (indicator_color value None)
    with (indicator_color value (Some bar_colours)).
  apply indicator_color_bounded;
    [cbn; lia | exact H0 | exact H1 | exact bar_colours_range].
Qed.

(** The history loop on readings from 0 to 1: one bar per reading, in
    consecutive columns. *)
Lemma draw_history_in_graph (values : list Q) (x : Z) :
  Forall (λ v, (0 <= v)%Q ∧ (v <= 1)%Q) values →
  ∃ bars,
    draw_history (DISPLAY_HEIGHT - 20) x values tt = (Ok tt, tt, bars) ∧
    length bars = length values ∧
    ∀ (i : nat) (d : draw),
      bars !! i = Some d → graph_bar (x + Z.of_nat i) d.
Proof.
  revert x. induction values as [|v values IH]; intros x Hall.
  - exists []. split; [reflexivity|]. split; [reflexivity|].
    intros i d Hd. rewrite lookup_nil in Hd. discriminate Hd.
  - apply Forall_cons in Hall as [[Hv0 Hv1] Hrest].
    destruct (bar_colour_bounded v Hv0 Hv1) as (r & g & b & Hcol & Hr & Hg & Hb).
    destruct (IH (x + 1) Hrest) as (bars & Hrun & Hlen & Hbars).
    eexists (_ :: bars). cbn [draw_history].
    rewrite Hcol, bind_lift_ok. unfold rectangle. rewrite bind_emit, Hrun.
    split; [reflexivity|]. split; [cbn; rewrite Hlen; reflexivity|].
    intros [|i] d Hd.
    + cbn in Hd. injection Hd as <-. rewrite Z.add_0_r.
      exists (inject_Z DISPLAY_HEIGHT - v * inject_Z (DISPLAY_HEIGHT - 20))%Q,
        r, g, b.
      split; [reflexivity|].
      change (inject_Z DISPLAY_HEIGHT) with 80%Q.
      change (inject_Z (DISPLAY_HEIGHT - 20)) with 60%Q.
      repeat split; try lia; lra.
    + cbn in Hd. replace (x + Z.of_nat (S i)) with (x + 1 + Z.of_nat i) by lia.
      apply Hbars, Hd.
Qed.

(** The history loop on a negative reading, in exact arithmetic. *)
Lemma draw_history_negative (values : list Q) (x : Z) (v : Q) :
  v ∈ values → (v < 0)%Q →
  outcome (draw_history (DISPLAY_HEIGHT - 20) x values tt) = Raise IndexError.
Proof.
  revert x. induction values as [|w values IH]; intros x Hin Hneg.
  - apply elem_of_nil in Hin. contradiction.
  - cbn [draw_history].
    destruct (indicator_color w None) as [col|e] eqn:Hcol.
    + rewrite bind_lift_ok. unfold rectangle. rewrite bind_emit.
      apply elem_of_cons in Hin as [-> | Hin].
      * change (indicator_color w None)
          with (indicator_color w (Some bar_colours)) in Hcol.
        rewrite (indicator_color_below_zero w bar_colours Hneg) in Hcol.
        discriminate Hcol.
      * specialize (IH (x + 1) Hin Hneg). unfold outcome in *.
        destruct (draw_history _ _ values tt) as [[r s] ev]. exact IH.
    + rewrite bind_lift_raise.
      apply indicator_color_raises in Hcol. subst e. reflexivity.
Qed.



(** The history loop draws nothing in the red of the alarm line. *)
Lemma draw_history_no_red (values : list Q) (x : Z) (r : result unit)
    (s : unit) (bars : list draw) :
  draw_history (DISPLAY_HEIGHT - 20) x values tt = (r, s, bars) →
  Forall (λ d, ∀ x0 y0 x1 y1, d ≠ Rectangle x0 y0 x1 y1 (255, 0, 0)) bars.
Proof.
  revert x r s bars.
  induction values as [|w values IH]; intros x r s bars Hrun.
  - injection Hrun as _ _ <-. constructor.
  - cbn [draw_history] in Hrun.
    destruct (indicator_color w None) as [[[cr cg] cb]|e] eqn:Hcol.
    + assert (Hred : (cr, cg, cb) ≠ (255, 0, 0)).
      { change (indicator_color w None)
          with (indicator_color w (Some bar_colours)) in Hcol.
        pose proof (indicator_color_ok_bounded _ _ _ _ _ _ _
                      bar_colours_range Hcol) as (_ & Hg & _).
        intros Heq. injection Heq as _ -> _. lia. }
      rewrite bind_lift_ok in Hrun. unfold rectangle in Hrun.
      rewrite bind_emit in Hrun.
      destruct (draw_history _ _ values tt) as [[r' s'] ev] eqn:Hrest.
      injection Hrun as _ _ <-.
      constructor; [|eapply IH; exact Hrest].
      intros x0 y0 x1 y1 Heq. injection Heq as _ _ _ _ -> -> ->.
      apply Hred. reflexivity.
    + rewrite bind_lift_raise in Hrun. injection Hrun as _ _ <-.
      constructor.
Qed.



(** X21 — No colour from outside the palette.  Whatever the input, inside
    0..1 or not, a colour that [indicator_color] returns has each of its
    components within the range [lo]..[hi] the palette's components span,
    for a range within [exact_int]; on the default palette that is
    192..255.  A component beyond [exact_int] the source can return as the
    float next to it, outside the range. *)
Theorem indicator_color_never_leaves_palette (value : Q) (r : list colour)
    (lo hi : Z) (x y z : Z) :
  (palette_within lo hi r → - exact_int <= lo → hi <= exact_int →
   indicator_color value (Some r) = Ok (x, y, z) →
   lo <= x <= hi ∧ lo <= y <= hi ∧ lo <= z <= hi) ∧
  (indicator_color value None = Ok (x, y, z) →
   192 <= x <= 255 ∧ 192 <= y <= 255 ∧ 192 <= z <= 255).
Proof.
  split.
  - intros Hpal _ _ Hcol.
    exact (indicator_color_ok_bounded value r lo hi x y z Hpal Hcol).
  - intros Hcol.
    change (indicator_color value None)
      with (indicator_color value (Some bar_colours)) in Hcol.
    exact (indicator_color_ok_bounded value bar_colours 192 255 x y z
             bar_colours_range Hcol).
Qed.

Lemma indicator_color_never_leaves_palette_witness :
  indicator_color 1.5 None = Ok (254, 217, 192) ∧
  192 <= 254 <= 255 ∧ 192 <= 217 <= 255 ∧ 192 <= 192 <= 255.
Proof.
  assert (Hcol : indicator_color 1.5 None = Ok (254, 217, 192))
    by (vm_compute; reflexivity).
  split; [exact Hcol|].
  destruct (indicator_color_never_leaves_palette 1.5 [] 0 0 254 217 192)
    as [_ Hdefault].
  exact (Hdefault Hcol).
Defined.

Lemma index_out_of_table (i : Z) :
  ¬ -2 <= i <= 3 → Py.index [21; 61; 101] (i - 1) = Raise IndexError.
Proof.
  intros Hout. unfold Py.index. cbn [length]. cbv zeta.
  change (Z.of_nat 3) with 3.
  destruct (i - 1 <? 0) eqn:Hneg.
  - apply Z.ltb_lt in Hneg.
    rewrite (proj2 (Z.leb_gt 0 (i - 1 + 3))) by lia. reflexivity.
  - apply Z.ltb_ge in Hneg.
    rewrite (proj2 (Z.ltb_ge (i - 1) 3)) by lia.
    rewrite andb_false_r. reflexivity.
Qed.

(** X22 — [Channel.render] and the channel number.  The bar of a channel
    is placed by looking its number up in a table of three positions: for
    a number above 3 or below -2 the call raises [IndexError] before it
    draws anything.  For a number from 1 to 3 the bar starts at column
    [40 * number - 19]: a channel that is not active (sensor inactive or
    not enabled) gets no bar, only its grey marker and its number; an
    active channel reading between 0 and 1 on a display of non-negative
    height gets a bar 37 columns wide from a top row between 0 and the
    height down to the height, coloured within the bar palette's range,
    then its marker and its number. *)
Theorem render_by_channel_number (HEIGHT : Z) (getsize : string → Z * Z)
    (self : Channel) :
  let x := 40 * channel self - 19 in
  let is_active := active (sensor self) && Py.truthy (enabled self) in
  let number :=
    Text (inject_Z (x + 15 + Qceiling (8 - inject_Z
                      (getsize (pretty (channel self))).1 / 2))) 2
      (Plain (pretty (channel self))) (255, 255, 255) in
  (¬ -2 <= channel self <= 3 →
   render HEIGHT getsize self tt = (Raise IndexError, tt, [])) ∧
  (1 <= channel self <= 3 → is_active = false →
   render HEIGHT getsize self tt
   = (Ok tt, tt,
      [Rectangle (inject_Z (x + 15)) 2 (inject_Z (x + 15 + 15)) 17
         (129, 129, 129);
       number])) ∧
  (1 <= channel self <= 3 → is_active = true →
   (0 <= saturation (sensor self))%Q → (saturation (sensor self) <= 1)%Q →
   0 <= HEIGHT →
   ∃ top r g b marker,
     render HEIGHT getsize self tt
     = (Ok tt, tt,
        [Rectangle (inject_Z x) (inject_Z top) (inject_Z (x + 37))
           (inject_Z HEIGHT) (r, g, b);
         Rectangle (inject_Z (x + 15)) 2 (inject_Z (x + 15 + 15)) 17 marker;
         number]) ∧
     0 <= top <= HEIGHT ∧
     192 <= r <= 255 ∧ 192 <= g <= 255 ∧ 192 <= b <= 255).
Proof.
  cbv zeta. split; [|split].
  - intros Hout. unfold render.
    rewrite index_out_of_table by exact Hout. apply bind_lift_raise.
  - intros Hch Hoff. unfold render. cbv zeta. rewrite Hoff.
    assert (Hc : channel self = 1 ∨ channel self = 2 ∨ channel self = 3)
      by lia.
    destruct Hc as [-> | [-> | ->]]; reflexivity.
  - intros Hch Hon Hs0 Hs1 HH. unfold render. cbv zeta. rewrite Hon.
    destruct (bar_colour_bounded _ Hs0 Hs1) as (r & g & b & Hbar & Hbounds).
    destruct (indicator_color_bounded (saturation (sensor self))
                label_colours 32 255) as (mr & mg & mb & Hmark & _);
      [cbn; lia | exact Hs0 | exact Hs1
      | repeat constructor; destruct i as [|[|i]]; cbn; lia |].
    exists (Py.int ((1 - saturation (sensor self)) * inject_Z HEIGHT)),
      r, g, b, (mr, mg, mb).
    split; [|split; [|exact Hbounds]].
    + rewrite Hbar, Hmark.
      assert (Hc : channel self = 1 ∨ channel self = 2 ∨ channel self = 3)
        by lia.
      destruct Hc as [-> | [-> | ->]]; reflexivity.
    + apply int_between.
      * rewrite Zle_Qle in HH. change (inject_Z 0) with 0%Q in *. nra.
      * rewrite Zle_Qle in HH. change (inject_Z 0) with 0%Q in *. nra.
Qed.

Lemma render_by_channel_number_witness :
  render 80 sample_getsize (Channel_init 0 unread_sensor 4 4 4) tt
  = (Raise IndexError, tt, []) ∧
  render 80 sample_getsize default_channel tt
  = (Ok tt, tt,
     [Rectangle 36 2 51 17 (129, 129, 129);
      Text 41 2 (Plain "1") (255, 255, 255)]) ∧
  ∃ top r g b marker,
    render 80 sample_getsize (logged_channel []) tt
    = (Ok tt, tt,
       [Rectangle 21 (inject_Z top) 58 80 (r, g, b);
        Rectangle 36 2 51 17 marker;
        Text 41 2 (Plain "1") (255, 255, 255)]) ∧
    0 <= top <= 80.
Proof.
  split; [|split].
  - destruct (render_by_channel_number 80 sample_getsize
                (Channel_init 0 unread_sensor 4 4 4)) as (Hout & _).
    apply Hout. cbn. lia.
  - destruct (render_by_channel_number 80 sample_getsize default_channel)
      as (_ & Hidle & _).
    apply Hidle; [cbn; lia | reflexivity].
  - destruct (render_by_channel_number 80 sample_getsize (logged_channel []))
      as (_ & _ & Hbar).
    destruct Hbar as (top & r & g & b & marker & Hrun & Htop & _).
    + cbn. lia.
    + vm_compute. reflexivity.
    + vm_compute. discriminate.
    + vm_compute. discriminate.
    + lia.
    + exists top, r, g, b, marker. split; [exact Hrun | exact Htop].
Defined.
